(** * Subscription manager: renewal-date arithmetic and the subscription store

    A shallow embedding of [utils.py] (date validation and the
    days-until-renewal computation) and of [subscription.py] (the
    [Subscription] dataclass and the [SubscriptionManager] queries), with the
    properties the specification states about them.

    Modelling conventions.
    - A Python [str] is a [string]; a character is its code point, so the
      model covers the code points 0..255.  On that range the regular
      expression class [\d] is exactly ['0'..'9'].  Beyond it [\d] and
      [int] read the decimal digits of every script: the module [Unicode]
      models [validate_date] on lists of code points of any size, and the
      two models agree on the code points 0..255.
    - A Python exception is a value: functions that can raise return a
      [result].  Only [ValueError] escapes the modelled functions.
    - [date.today()] is the parameter [today] of the functions that read it.
    - The SQLite table is a list of rows in rowid order together with the
      AUTOINCREMENT counter; storage failures ([sqlite3.Error]) are outside
      the model, and so is the [OverflowError] of an id outside the 64-bit
      range of SQLite.
    - A cost is an exact rational: the model covers the costs that are
      numbers, and no property rests on how a sum of costs is rounded.
      The check of [__post_init__] is modelled a second time on binary64
      costs, where a cost can be a NaN.
    - A [dict] is the list of its items in insertion order; [len] and the
      slices of a [str] count characters. *)

From Stdlib Require Import ZArith NArith QArith List String Ascii Bool Lia.
From Stdlib Require Import Permutation Sorted PrimFloat.
Import ListNotations.

Open Scope string_scope.
Open Scope Z_scope.

(** ** Exceptions and results *)

Inductive exn : Type :=
| ValueError (msg : string).

Inductive result (A : Type) : Type :=
| Return (a : A)
| Raise (e : exn).

Arguments Return {A} a.
Arguments Raise {A} e.

Definition bind {A B : Type} (r : result A) (k : A -> result B) : result B :=
  match r with
  | Return a => k a
  | Raise e => Raise e
  end.

Notation "x <- r ;; k" := (bind r (fun x => k))
  (at level 61, r at next level, right associativity).

Fixpoint mapM {A B : Type} (f : A -> result B) (l : list A) : result (list B) :=
  match l with
  | [] => Return []
  | a :: l' => b <- f a ;; bs <- mapM f l' ;; Return (b :: bs)
  end.

(** ** Characters *)

Definition code (c : ascii) : Z := Z.of_N (N_of_ascii c).

Definition in_range (lo hi c : ascii) : bool :=
  (code lo <=? code c) && (code c <=? code hi).

(** The class [\d]. *)
Definition is_digit (c : ascii) : bool := in_range "0" "9" c.

(** [int(c)] for a digit [c]. *)
Definition digit_value (c : ascii) : Z := code c - 48.

(** ** [datetime.date] *)

Module Datetime.

Definition MINYEAR : Z := 1.
Definition MAXYEAR : Z := 9999.

Definition is_leap (year : Z) : bool :=
  (year mod 4 =? 0) && (negb (year mod 100 =? 0) || (year mod 400 =? 0)).

Definition DAYS_IN_MONTH (month : Z) : Z :=
  match month with
  | 1 => 31 | 2 => 28 | 3 => 31 | 4 => 30 | 5 => 31 | 6 => 30
  | 7 => 31 | 8 => 31 | 9 => 30 | 10 => 31 | 11 => 30 | 12 => 31
  | _ => 0
  end.

Definition DAYS_BEFORE_MONTH (month : Z) : Z :=
  match month with
  | 1 => 0 | 2 => 31 | 3 => 59 | 4 => 90 | 5 => 120 | 6 => 151
  | 7 => 181 | 8 => 212 | 9 => 243 | 10 => 273 | 11 => 304 | 12 => 334
  | _ => 0
  end.

Definition days_in_month (year month : Z) : Z :=
  if (month =? 2) && is_leap year then 29 else DAYS_IN_MONTH month.

Definition days_before_year (year : Z) : Z :=
  let y := year - 1 in
  y * 365 + y / 4 - y / 100 + y / 400.

Definition days_before_month (year month : Z) : Z :=
  DAYS_BEFORE_MONTH month + (if (2 <? month) && is_leap year then 1 else 0).

Definition ymd2ord (year month day : Z) : Z :=
  days_before_year year + days_before_month year month + day.

Record date : Type := mkdate { year : Z; month : Z; day : Z }.

(** The field check of the [date] constructor. *)
Definition check_date_fields (y m d : Z) : bool :=
  (MINYEAR <=? y) && (y <=? MAXYEAR) &&
  (1 <=? m) && (m <=? 12) &&
  (1 <=? d) && (d <=? days_in_month y m).

(** [date(y, m, d)]; [None] stands for the [ValueError] it raises. *)
Definition date_new (y m d : Z) : option date :=
  if check_date_fields y m d then Some (mkdate y m d) else None.

(** [d.replace(year=y)]. *)
Definition replace_year (d : date) (y : Z) : option date :=
  date_new y (month d) (day d).

Definition toordinal (d : date) : Z := ymd2ord (year d) (month d) (day d).

(** [a < b]: comparison of the [(year, month, day)] tuples. *)
Definition date_lt (a b : date) : bool :=
  (year a <? year b)
  || ((year a =? year b)
      && ((month a <? month b)
          || ((month a =? month b) && (day a <? day b)))).

(** [(a - b).days]. *)
Definition sub_days (a b : date) : Z := toordinal a - toordinal b.

(** The values a [date] object can hold. *)
Definition valid (d : date) : Prop :=
  check_date_fields (year d) (month d) (day d) = true.

End Datetime.

Import Datetime.

(** ** [datetime.strptime(s, '%Y-%m-%d')]

    The format is compiled to the regular expression
    [(\d\d\d\d)-(1[0-2]|0[1-9]|[1-9])-(3[0-1]|[1-2]\d|0[1-9]|[1-9]| [1-9])];
    the groups below take the continuation that matches the rest of the
    expression, so that a later failure backtracks into the next alternative. *)

Module Strptime.

Section Groups.
Context {A : Type}.

Definition orelse (a b : option A) : option A :=
  match a with
  | Some x => Some x
  | None => b
  end.

Definition re_lit (c : ascii) (s : string) (k : string -> option A) : option A :=
  match s with
  | String a rest => if (a =? c)%char then k rest else None
  | EmptyString => None
  end.

Definition two_chars (lo1 hi1 lo2 hi2 : ascii) (s : string)
    (k : Z -> string -> option A) : option A :=
  match s with
  | String a (String b rest) =>
      if in_range lo1 hi1 a && in_range lo2 hi2 b
      then k (10 * digit_value a + digit_value b) rest
      else None
  | _ => None
  end.

Definition one_char (lo hi : ascii) (s : string)
    (k : Z -> string -> option A) : option A :=
  match s with
  | String a rest => if in_range lo hi a then k (digit_value a) rest else None
  | EmptyString => None
  end.

(** [(?P<Y>\d\d\d\d)] *)
Definition re_Y (s : string) (k : Z -> string -> option A) : option A :=
  match s with
  | String a (String b (String c (String d rest))) =>
      if is_digit a && is_digit b && is_digit c && is_digit d
      then k (1000 * digit_value a + 100 * digit_value b
              + 10 * digit_value c + digit_value d) rest
      else None
  | _ => None
  end.

(** [(?P<m>1[0-2]|0[1-9]|[1-9])] *)
Definition re_m (s : string) (k : Z -> string -> option A) : option A :=
  orelse (two_chars "1" "1" "0" "2" s k)
    (orelse (two_chars "0" "0" "1" "9" s k)
       (one_char "1" "9" s k)).

(** [(?P<d>3[0-1]|[1-2]\d|0[1-9]|[1-9]| [1-9])]; in the last
    alternative [int] skips the blank. *)
Definition re_d (s : string) (k : Z -> string -> option A) : option A :=
  orelse (two_chars "3" "3" "0" "1" s k)
    (orelse (two_chars "1" "2" "0" "9" s k)
       (orelse (two_chars "0" "0" "1" "9" s k)
          (orelse (one_char "1" "9" s k)
             (re_lit " " s (fun s' => one_char "1" "9" s' k))))).
End Groups.

(** [format_regex.match(data_string)]: the groups and the unmatched rest. *)
Definition format_regex_match (s : string) : option (Z * Z * Z * string) :=
  re_Y s (fun y s1 =>
  re_lit "-" s1 (fun s2 =>
  re_m s2 (fun m s3 =>
  re_lit "-" s3 (fun s4 =>
  re_d s4 (fun d rest => Some (y, m, d, rest)))))).

(** [None] stands for the [ValueError] of a string that does not match
    the format, leaves unconverted data, or names no date. *)
Definition strptime (s : string) : option date :=
  match format_regex_match s with
  | None => None
  | Some (y, m, d, rest) =>
      match rest with
      | EmptyString => date_new y m d
      | String _ _ => None
      end
  end.

End Strptime.

Import Strptime.

(** ** [utils.py] *)

(** [re.match(r'^\d{4}-\d{2}-\d{2}$', s)]; [$] also matches just before a
    final newline. *)
Definition re_match_date_pattern (s : string) : bool :=
  match s with
  | String y1 (String y2 (String y3 (String y4 (String h1
      (String m1 (String m2 (String h2 (String d1 (String d2 tl))))))))) =>
      is_digit y1 && is_digit y2 && is_digit y3 && is_digit y4
      && (h1 =? "-")%char
      && is_digit m1 && is_digit m2
      && (h2 =? "-")%char
      && is_digit d1 && is_digit d2
      && match tl with
         | EmptyString => true
         | String nl EmptyString => (nl =? "010")%char
         | _ => false
         end
  | _ => false
  end.

Definition validate_date (date_string : string) : bool :=
  match date_string with
  | EmptyString => false
  | _ =>
      if negb (re_match_date_pattern date_string) then false
      else match strptime date_string with
           | Some _ => true
           | None => false
           end
  end.

Definition calc_error : exn :=
  ValueError "Error calculating days until renewal".

(** [calculate_days_until_renewal]; every [ValueError] raised inside the
    [try] block is raised again as [calc_error]. *)
Definition calculate_days_until_renewal (today : date) (renewal_date : string)
    : result Z :=
  if negb (validate_date renewal_date)
  then Raise (ValueError "Invalid renewal date format")
  else
    match strptime renewal_date with
    | None => Raise calc_error
    | Some renewal =>
        let current_year := year today in
        match replace_year renewal current_year with
        | None => Raise calc_error
        | Some renewal_this_year =>
            if date_lt renewal_this_year today
            then match replace_year renewal (current_year + 1) with
                 | None => Raise calc_error
                 | Some renewal_next_year =>
                     Return (sub_days renewal_next_year today)
                 end
            else Return (sub_days renewal_this_year today)
        end
    end.

(** ** Case mapping and [LIKE] *)

(** [str.lower] on one character: the letters A-Z and the upper-case
    letters of the range 192..222 (all but the multiplication sign 215)
    move up by 32. *)
Definition py_lower_char (c : ascii) : ascii :=
  let n := code c in
  if ((65 <=? n) && (n <=? 90))
     || ((192 <=? n) && (n <=? 222) && negb (n =? 215))
  then ascii_of_N (Z.to_N (n + 32))
  else c.

(** SQLite folds the case of A-Z only, in [LOWER] and in [LIKE]. *)
Definition sqlite_lower_char (c : ascii) : ascii :=
  let n := code c in
  if (65 <=? n) && (n <=? 90) then ascii_of_N (Z.to_N (n + 32)) else c.

Fixpoint map_string (f : ascii -> ascii) (s : string) : string :=
  match s with
  | EmptyString => EmptyString
  | String c s' => String (f c) (map_string f s')
  end.

Definition py_lower : string -> string := map_string py_lower_char.
Definition sqlite_lower : string -> string := map_string sqlite_lower_char.

(** [text LIKE pattern] on texts read to their end: [%] matches any run of
    characters, [_] any one character, any other character itself up to
    the case of A-Z. *)
Fixpoint like (pattern text : string) : bool :=
  match pattern with
  | EmptyString =>
      match text with
      | EmptyString => true
      | String _ _ => false
      end
  | String c pattern' =>
      if (c =? "%")%char
      then (fix any_run (t : string) : bool :=
              like pattern' t
              || match t with
                 | EmptyString => false
                 | String _ t' => any_run t'
                 end) text
      else match text with
           | EmptyString => false
           | String a text' =>
               ((c =? "_")%char
                || (sqlite_lower_char c =? sqlite_lower_char a)%char)
               && like pattern' text'
           end
  end.

(** The text [LIKE] reads from a value: SQLite takes the pattern and the
    text as C strings, which end before the first character of code 0. *)
Fixpoint c_str (s : string) : string :=
  match s with
  | EmptyString => EmptyString
  | String c s' => if (c =? "000")%char then EmptyString else String c (c_str s')
  end.

(** ** Stable sorting

    [ORDER BY] and [list.sort(key=...)] both keep the input order of
    elements with equal keys. *)

Section StableSort.
Context {A K : Type} (key : A -> K) (le : K -> K -> bool).

Fixpoint insert_sorted (x : A) (l : list A) : list A :=
  match l with
  | [] => [x]
  | y :: l' =>
      if le (key x) (key y) then x :: y :: l' else y :: insert_sorted x l'
  end.

Definition stable_sort (l : list A) : list A :=
  fold_right insert_sorted [] l.
End StableSort.

(** ** [subscription.py] *)

Record Subscription : Type := mkSubscription {
  id : option Z;
  name : string;
  category : string;
  cost : Q;
  renewal_date : string;
  payment_method : string
}.

(** [Subscription(...)]: the generated [__init__] followed by
    [__post_init__], on a cost that is a number. *)
Definition Subscription_new (id : option Z) (name category : string) (cost : Q)
    (renewal_date payment_method : string) : result Subscription :=
  if negb (Qle_bool 0 cost)
  then Raise (ValueError "Cost cannot be negative")
  else if negb (validate_date renewal_date)
  then Raise (ValueError "Invalid renewal date format")
  else Return (mkSubscription id name category cost renewal_date payment_method).

(** A row of the table [subscriptions]. *)
Record row : Type := mkrow {
  row_id : Z;
  row_name : string;
  row_category : string;
  row_cost : Q;
  row_renewal_date : string;
  row_payment_method : string
}.

(** The table in rowid order and the AUTOINCREMENT counter, the largest
    rowid ever handed out. *)
Record database : Type := mkdb {
  rows : list row;
  seq : Z
}.

Definition empty_db : database := mkdb [] 0.

(** [Subscription(id=row[0], name=row[1], ...)] *)
Definition row_to_subscription (r : row) : result Subscription :=
  Subscription_new (Some (row_id r)) (row_name r) (row_category r)
    (row_cost r) (row_renewal_date r) (row_payment_method r).

(** [ORDER BY name], under the BINARY collation. *)
Definition order_by_name (l : list row) : list row :=
  stable_sort row_name String.leb l.

(** The rowid AUTOINCREMENT gives to the next inserted row. *)
Definition next_rowid (db : database) : Z :=
  Z.max (seq db) (fold_right Z.max 0 (map row_id (rows db))) + 1.

Definition add_subscription (db : database) (subscription : Subscription)
    : Z * database :=
  let lastrowid := next_rowid db in
  (lastrowid,
   mkdb (rows db ++ [mkrow lastrowid (name subscription) (category subscription)
                       (cost subscription) (renewal_date subscription)
                       (payment_method subscription)])
        lastrowid).

Definition get_all_subscriptions (db : database) : result (list Subscription) :=
  mapM row_to_subscription (order_by_name (rows db)).

Definition get_subscription_by_id (db : database) (subscription_id : Z)
    : result (option Subscription) :=
  match find (fun r => row_id r =? subscription_id) (rows db) with
  | Some r => s <- row_to_subscription r ;; Return (Some s)
  | None => Return None
  end.

(** [not subscription.id] holds of [None] and of [0]. *)
Definition id_missing (i : option Z) : bool :=
  match i with
  | None => true
  | Some n => n =? 0
  end.

Definition update_row (s : Subscription) (i : Z) (r : row) : row :=
  if row_id r =? i
  then mkrow i (name s) (category s) (cost s) (renewal_date s) (payment_method s)
  else r.

Definition update_subscription (db : database) (subscription : Subscription)
    : result (bool * database) :=
  if id_missing (id subscription)
  then Raise (ValueError "Subscription ID is required for update")
  else
    match id subscription with
    | None => Raise (ValueError "Subscription ID is required for update")
    | Some i =>
        let rowcount := List.length (filter (fun r => row_id r =? i) (rows db)) in
        Return (Nat.ltb 0 rowcount,
                mkdb (map (update_row subscription i) (rows db)) (seq db))
    end.

Definition delete_subscription (db : database) (subscription_id : Z)
    : bool * database :=
  let rowcount :=
    List.length (filter (fun r => row_id r =? subscription_id) (rows db)) in
  (Nat.ltb 0 rowcount,
   mkdb (filter (fun r => negb (row_id r =? subscription_id)) (rows db)) (seq db)).

Definition get_subscriptions_by_category (db : database) (category : string)
    : result (list Subscription) :=
  mapM row_to_subscription
    (order_by_name
       (filter (fun r => (row_category r =? category)%string) (rows db))).

(** The loop of [get_upcoming_renewals]. *)
Fixpoint upcoming_loop (today : date) (days : Z) (subscriptions : list Subscription)
    : result (list (Subscription * Z)) :=
  match subscriptions with
  | [] => Return []
  | subscription :: rest =>
      days_until <- calculate_days_until_renewal today (renewal_date subscription) ;;
      upcoming <- upcoming_loop today days rest ;;
      Return (if (0 <=? days_until) && (days_until <=? days)
              then (subscription, days_until) :: upcoming
              else upcoming)
  end.

Definition get_upcoming_renewals (today : date) (db : database) (days : Z)
    : result (list (Subscription * Z)) :=
  subscriptions <- get_all_subscriptions db ;;
  upcoming <- upcoming_loop today days subscriptions ;;
  Return (stable_sort snd Z.leb upcoming).

(** [sum(...)] adds from the left, starting at 0; the sums are exact, the
    rounding of binary64 is not modelled. *)
Definition py_sum (l : list Q) : Q := fold_left Qplus l 0%Q.

Definition get_total_monthly_cost (db : database) : result Q :=
  subscriptions <- get_all_subscriptions db ;;
  Return (py_sum (map cost subscriptions)).

Definition get_total_annual_cost (db : database) : result Q :=
  monthly <- get_total_monthly_cost db ;;
  Return (monthly * 12)%Q.

Definition like_query (query_lower : string) : string :=
  "%" ++ query_lower ++ "%".

Definition search_where (query_lower : string) (r : row) : bool :=
  like (c_str (like_query query_lower)) (c_str (sqlite_lower (row_name r)))
  || like (c_str (like_query query_lower)) (c_str (sqlite_lower (row_category r))).

(** The number of bytes of the UTF-8 encoding of a text. *)
Fixpoint utf8_bytes (s : string) : Z :=
  match s with
  | EmptyString => 0
  | String c s' => (if code c <? 128 then 1 else 2) + utf8_bytes s'
  end.

(** The limit of SQLite on the bytes of a [LIKE] pattern. *)
Definition MAX_LIKE_PATTERN_LENGTH : Z := 50000.

(** [LIKE] fails on a pattern above the limit; the [sqlite3.Error] is
    caught, and the results, which are still empty, are returned. *)
Definition search_subscriptions (db : database) (query : string)
    : result (list Subscription) :=
  let query_lower := py_lower query in
  if MAX_LIKE_PATTERN_LENGTH <? utf8_bytes (like_query query_lower)
  then Return []
  else
    mapM row_to_subscription
      (order_by_name (filter (search_where query_lower) (rows db))).

(** The records of [demo.py] that the specification's examples use. *)
Definition sample_subscriptions : list Subscription :=
  [ mkSubscription None "Netflix" "Streaming" 15.99 "2024-02-15" "Credit Card";
    mkSubscription None "Spotify Premium" "Music" 9.99 "2024-01-20" "PayPal";
    mkSubscription None "Adobe Creative Cloud" "Software" 52.99 "2024-03-01"
      "Credit Card";
    mkSubscription None "Dropbox Plus" "Cloud Storage" 9.99 "2024-01-10"
      "Credit Card" ].

Definition add_all (db : database) (l : list Subscription) : database :=
  fold_left (fun db s => snd (add_subscription db s)) l db.

Definition sample_db : database := add_all empty_db sample_subscriptions.

(** ** The specification's vocabulary *)

Module Spec.

(** [s] is four digits, a dash, two digits, a dash and two digits, which
    read as the numbers [y], [m] and [d]. *)
Definition has_shape (s : string) (y m d : Z) : Prop :=
  exists y1 y2 y3 y4 m1 m2 d1 d2 : ascii,
    s = String y1 (String y2 (String y3 (String y4 (String "-"
          (String m1 (String m2 (String "-" (String d1 (String d2 "")))))))))
    /\ Forall (fun c => is_digit c = true) [y1; y2; y3; y4; m1; m2; d1; d2]
    /\ y = 1000 * digit_value y1 + 100 * digit_value y2
           + 10 * digit_value y3 + digit_value y4
    /\ m = 10 * digit_value m1 + digit_value m2
    /\ d = 10 * digit_value d1 + digit_value d2.

Definition leap_year (y : Z) : bool :=
  if y mod 400 =? 0 then true
  else if y mod 100 =? 0 then false
  else y mod 4 =? 0.

Definition month_length (y m : Z) : Z :=
  if (m =? 4) || (m =? 6) || (m =? 9) || (m =? 11) then 30
  else if m =? 2 then (if leap_year y then 29 else 28)
  else 31.

(** A date of the calendar: years count from 1. *)
Definition real_calendar_date (y m d : Z) : Prop :=
  1 <= y /\ 1 <= m <= 12 /\ 1 <= d <= month_length y m.

(** The days from [today] to the next date with month [m] and day [d]:
    the candidate of today's year, or of the year after when that one is
    strictly earlier than today. *)
Definition days_until_next_anniversary (m d : Z) (today : date) : Z :=
  let candidate := ymd2ord (year today) m d in
  if candidate <? toordinal today
  then ymd2ord (year today + 1) m d - toordinal today
  else candidate - toordinal today.

(** A letter A-Z as its small letter, any other character as itself. *)
Definition small (c : ascii) : ascii :=
  if in_range "A" "Z" c then ascii_of_N (Z.to_N (code c + 32)) else c.

(** Two characters are the same up to the case of the letters A-Z. *)
Definition same_letter (a b : ascii) : bool := (small a =? small b)%char.

Fixpoint starts_with_ci (q s : string) : bool :=
  match q, s with
  | EmptyString, _ => true
  | String _ _, EmptyString => false
  | String a q', String b s' => same_letter a b && starts_with_ci q' s'
  end.

(** [s] contains [q] as a substring, up to the case of the letters A-Z. *)
Fixpoint contains_ci (q s : string) : bool :=
  starts_with_ci q s
  || match s with
     | EmptyString => false
     | String _ s' => contains_ci q s'
     end.

(** The records a search for [q] is to list. *)
Definition matches (q : string) (s : Subscription) : bool :=
  contains_ci q (name s) || contains_ci q (category s).

(** The invariant of a record: a cost that is not negative and a valid
    renewal date. *)
Definition invariant (s : Subscription) : Prop :=
  (0 <= cost s)%Q /\ validate_date (renewal_date s) = true.

(** The order of the upcoming renewals: by days until the renewal, and by
    name among renewals on the same day. *)
Definition upcoming_order (p1 p2 : Subscription * Z) : Prop :=
  snd p1 < snd p2
  \/ (snd p1 = snd p2 /\ String.leb (name (fst p1)) (name (fst p2)) = true).

End Spec.

(** The day of the year, as [toordinal] adds it to [days_before_year]. *)
Definition day_of_year (y m d : Z) : Z := days_before_month y m + d.

Definition year_length (y : Z) : Z := if is_leap y then 366 else 365.

(** The dates [calculate_days_until_renewal] builds with [replace] exist:
    the anniversary in today's year and, when that one is already past, in
    the year after. *)
Definition anniversary_exists (today renewal : date) : bool :=
  check_date_fields (year today) (month renewal) (day renewal)
  && (negb (date_lt (mkdate (year today) (month renewal) (day renewal)) today)
      || check_date_fields (year today + 1) (month renewal) (day renewal)).

(** The characters [LIKE] gives a meaning of their own. *)
Definition wildcard (c : ascii) : bool := (c =? "%")%char || (c =? "_")%char.

Fixpoint string_forall (p : ascii -> bool) (s : string) : bool :=
  match s with
  | EmptyString => true
  | String c s' => p c && string_forall p s'
  end.

Definition plain_char (c : ascii) : bool :=
  (0 <? code c) && (code c <? 128) && negb (wildcard c).

(** A query of ASCII characters none of which is a wildcard or the
    character of code 0. *)
Definition plain_query (q : string) : bool := string_forall plain_char q.

(** A text without the character of code 0. *)
Definition nul_free (s : string) : bool :=
  string_forall (fun c => negb (c =? "000")%char) s.

(** A record whose name and category are without the character of code 0. *)
Definition nul_free_record (s : Subscription) : bool :=
  nul_free (name s) && nul_free (category s).

Definition all_ascii : list ascii := map ascii_of_nat (List.seq 0%nat 256%nat).

(** [get_all_subscriptions] on [sample_db]. *)
Definition sample_listing : list Subscription :=
  [ mkSubscription (Some 3) "Adobe Creative Cloud" "Software" 52.99 "2024-03-01"
      "Credit Card";
    mkSubscription (Some 4) "Dropbox Plus" "Cloud Storage" 9.99 "2024-01-10"
      "Credit Card";
    mkSubscription (Some 1) "Netflix" "Streaming" 15.99 "2024-02-15" "Credit Card";
    mkSubscription (Some 2) "Spotify Premium" "Music" 9.99 "2024-01-20" "PayPal" ].

(** The record a query builds from a row. *)
Definition subscription_of_row (r : row) : Subscription :=
  mkSubscription (Some (row_id r)) (row_name r) (row_category r) (row_cost r)
    (row_renewal_date r) (row_payment_method r).

(** The row [add_subscription] and [update_subscription] write for a record. *)
Definition row_of_subscription (i : Z) (s : Subscription) : row :=
  mkrow i (name s) (category s) (cost s) (renewal_date s) (payment_method s).

(** A row from which a record can be built. *)
Definition row_valid (r : row) : bool :=
  Qle_bool 0 (row_cost r) && validate_date (row_renewal_date r).

Definition store_valid (db : database) : bool := forallb row_valid (rows db).

(** [sample_db] with one more record, renewed on a leap day. *)
Definition leap_day_db : database :=
  snd (add_subscription sample_db
         (mkSubscription None "Leap Club" "Fitness" 5 "2024-02-29" "PayPal")).

(** The order [get_all_subscriptions] lists records in. *)
Definition by_name (s1 s2 : Subscription) : Prop :=
  String.leb (name s1) (name s2) = true.

(** ** The rest of [utils.py] *)

(** [len(s)] *)
Definition len (s : string) : Z := Z.of_nat (String.length s).

(** [str.isspace] on one character: the controls 9..13 and 28..31, the
    blank, and the characters 133 and 160. *)
Definition is_space (c : ascii) : bool :=
  let n := code c in
  ((9 <=? n) && (n <=? 13)) || ((28 <=? n) && (n <=? 32))
  || (n =? 133) || (n =? 160).

Fixpoint lstrip (s : string) : string :=
  match s with
  | EmptyString => EmptyString
  | String c s' => if is_space c then lstrip s' else s
  end.

Fixpoint rstrip (s : string) : string :=
  match s with
  | EmptyString => EmptyString
  | String c s' =>
      match rstrip s' with
      | EmptyString => if is_space c then EmptyString else String c EmptyString
      | String c' r => String c (String c' r)
      end
  end.

(** [s.strip()] *)
Definition strip (s : string) : string := rstrip (lstrip s).

(** The three validators differ in their upper bound only. *)
Definition validate_text (upper : Z) (text : string) : bool :=
  if (text =? "")%string || (strip text =? "")%string then false
  else if (len (strip text) <? 2) || (upper <? len (strip text)) then false
  else true.

Definition validate_subscription_name (name : string) : bool :=
  if (name =? "")%string || (strip name =? "")%string then false
  else if (len (strip name) <? 2) || (100 <? len (strip name)) then false
  else true.

Definition validate_category (category : string) : bool :=
  if (category =? "")%string || (strip category =? "")%string then false
  else if (len (strip category) <? 2) || (50 <? len (strip category)) then false
  else true.

Definition validate_payment_method (payment_method : string) : bool :=
  if (payment_method =? "")%string || (strip payment_method =? "")%string
  then false
  else if (len (strip payment_method) <? 2) || (50 <? len (strip payment_method))
  then false
  else true.

(** [text[:stop]]: a negative [stop] counts from the end. *)
Definition slice_to (text : string) (stop : Z) : string :=
  let n := len text in
  let stop' := if stop <? 0 then Z.max (n + stop) 0 else Z.min stop n in
  String.substring 0 (Z.to_nat stop') text.

Definition truncate_string (text : string) (max_length : Z) : string :=
  if len text <=? max_length then text
  else slice_to text (max_length - 3) ++ "...".





(** The [ValueError] of [strptime]. *)
Definition strptime_error : exn := ValueError "time data does not match format".

Definition get_date_range_days (start_date end_date : string) : result Z :=
  if negb (validate_date start_date) || negb (validate_date end_date)
  then Raise (ValueError "Invalid date format")
  else
    match strptime start_date with
    | None => Raise strptime_error
    | Some start =>
        match strptime end_date with
        | None => Raise strptime_error
        | Some end_ => Return (sub_days end_ start)
        end
    end.

(** [a <= b] on dates: comparison of the [(year, month, day)] tuples. *)
Definition date_le (a b : date) : bool :=
  (year a <? year b)
  || ((year a =? year b)
      && ((month a <? month b)
          || ((month a =? month b) && (day a <=? day b)))).

Definition is_date_in_range (check_date start_date end_date : string) : result bool :=
  if negb (forallb validate_date [check_date; start_date; end_date])
  then Raise (ValueError "Invalid date format")
  else
    match strptime check_date with
    | None => Raise strptime_error
    | Some check =>
        match strptime start_date with
        | None => Raise strptime_error
        | Some start =>
            match strptime end_date with
            | None => Raise strptime_error
            | Some end_ => Return (date_le start check && date_le check end_)
            end
        end
    end.

(** ** The rest of [subscription.py] *)

(** One pass of the loop of [get_cost_by_category] over a dictionary kept
    as the list of its items in insertion order. *)
Fixpoint dict_add (d : list (string * Q)) (k : string) (v : Q) : list (string * Q) :=
  match d with
  | [] => [(k, v)]
  | (k', v') :: d' =>
      if (k' =? k)%string then (k', (v' + v)%Q) :: d'
      else (k', v') :: dict_add d' k v
  end.

Definition get_cost_by_category (db : database) : result (list (string * Q)) :=
  subscriptions <- get_all_subscriptions db ;;
  Return (fold_left (fun d s => dict_add d (category s) (cost s)) subscriptions []).

(** [d.get(k)] *)
Fixpoint dict_get (d : list (string * Q)) (k : string) : option Q :=
  match d with
  | [] => None
  | (k', v) :: d' => if (k' =? k)%string then Some v else dict_get d' k
  end.

(** The rowids grow along the table and stay within the counter: what
    AUTOINCREMENT keeps. *)
Fixpoint ids_between (lo hi : Z) (l : list row) : bool :=
  match l with
  | [] => lo <=? hi
  | r :: l' => (lo <? row_id r) && ids_between (row_id r) hi l'
  end.

Definition store_wf (db : database) : bool := ids_between 0 (seq db) (rows db).

(** The costs of the records of one category, in the order of the list. *)
Definition category_costs (c : string) (subs : list Subscription) : list Q :=
  map cost (filter (fun s => (category s =? c)%string) subs).

(** What a dictionary entry holds after the costs [l] were added one by
    one: nothing for no cost, else the first cost with the others added. *)
Definition added_up (l : list Q) : option Q :=
  match l with
  | [] => None
  | x :: xs => Some (fold_left Qplus xs x)
  end.





(** ** Ids, records and stores the properties speak of *)

(** SQLite's INTEGER is a signed 64-bit number.  Binding an id outside this
    range fails with [OverflowError] before the statement runs, so the
    functions of the store are modelled for the ids of this range. *)
Definition int64 (i : Z) : bool := (- 2 ^ 63 <=? i) && (i <? 2 ^ 63).

(** A record that passes every check the specification asks of [add]: a
    cost that is not negative, a valid renewal date, and a name, a category
    and a payment method accepted by the validators of [utils.py]. *)
Definition valid_record (s : Subscription) : bool :=
  Qle_bool 0 (cost s) && validate_date (renewal_date s)
  && validate_subscription_name (name s) && validate_category (category s)
  && validate_payment_method (payment_method s).

(** The record the edit of [main.py] hands to [update_subscription] after
    it assigned the cost -5 to the record of Netflix. *)
Definition negative_cost_record : Subscription :=
  mkSubscription (Some 1) "Netflix" "Streaming" (-5) "2024-02-15" "Credit Card".

(** [sample_db] after that update. *)
Definition negative_cost_db : database :=
  mkdb (map (update_row negative_cost_record 1) (rows sample_db)) (seq sample_db).

(** The pairs [get_upcoming_renewals] is to list, in the order of the
    records: each record whose days until renewal lie in the window, with
    these days. *)
Fixpoint due_pairs (today : date) (days : Z) (subs : list Subscription)
    : list (Subscription * Z) :=
  match subs with
  | [] => []
  | s :: rest =>
      match calculate_days_until_renewal today (renewal_date s) with
      | Return d =>
          if (0 <=? d) && (d <=? days)
          then (s, d) :: due_pairs today days rest
          else due_pairs today days rest
      | Raise _ => due_pairs today days rest
      end
  end.

(** ** [__post_init__] on a binary64 cost

    Python holds a cost as a binary64 number, and [Subscription_new] is the
    check below on the costs that are numbers.  The comparison
    [self.cost < 0] is false of a NaN, as every comparison with a NaN is. *)
Definition Subscription_post_init (cost : float) (renewal_date : string)
    : result unit :=
  if (cost <? 0)%float
  then Raise (ValueError "Cost cannot be negative")
  else if negb (validate_date renewal_date)
  then Raise (ValueError "Invalid renewal date format")
  else Return tt.

(** ** Strings beyond the code points 0..255

    The class [\d] of [re] and the conversion [int] read every decimal
    digit of Unicode.  [validate_date] is modelled here on a [str] as the
    list of its code points, for a table [decimal] that gives the decimal
    digits their values. *)

Module Unicode.

Definition str : Type := list Z.

Definition in_range (lo hi c : Z) : bool := (lo <=? c) && (c <=? hi).

Section Decimal.
Variable decimal : Z -> option Z.

(** The class [\d]. *)
Definition is_digit (c : Z) : bool :=
  match decimal c with
  | Some _ => true
  | None => false
  end.

(** [int(c)] for a digit [c]. *)
Definition digit_value (c : Z) : Z :=
  match decimal c with
  | Some v => v
  | None => 0
  end.

Section Groups.
Context {A : Type}.

Definition re_lit (c : Z) (s : str) (k : str -> option A) : option A :=
  match s with
  | a :: rest => if a =? c then k rest else None
  | [] => None
  end.

Definition two_chars (class1 class2 : Z -> bool) (s : str)
    (k : Z -> str -> option A) : option A :=
  match s with
  | a :: b :: rest =>
      if class1 a && class2 b
      then k (10 * digit_value a + digit_value b) rest
      else None
  | _ => None
  end.

Definition one_char (class : Z -> bool) (s : str)
    (k : Z -> str -> option A) : option A :=
  match s with
  | a :: rest => if class a then k (digit_value a) rest else None
  | [] => None
  end.

(** [(?P<Y>\d\d\d\d)] *)
Definition re_Y (s : str) (k : Z -> str -> option A) : option A :=
  match s with
  | a :: b :: c :: d :: rest =>
      if is_digit a && is_digit b && is_digit c && is_digit d
      then k (1000 * digit_value a + 100 * digit_value b
              + 10 * digit_value c + digit_value d) rest
      else None
  | _ => None
  end.

(** [(?P<m>1[0-2]|0[1-9]|[1-9])]: the ranges are those of ['0'..'9']. *)
Definition re_m (s : str) (k : Z -> str -> option A) : option A :=
  orelse (two_chars (in_range 49 49) (in_range 48 50) s k)
    (orelse (two_chars (in_range 48 48) (in_range 49 57) s k)
       (one_char (in_range 49 57) s k)).

(** [(?P<d>3[0-1]|[1-2]\d|0[1-9]|[1-9]| [1-9])] *)
Definition re_d (s : str) (k : Z -> str -> option A) : option A :=
  orelse (two_chars (in_range 51 51) (in_range 48 49) s k)
    (orelse (two_chars (in_range 49 50) is_digit s k)
       (orelse (two_chars (in_range 48 48) (in_range 49 57) s k)
          (orelse (one_char (in_range 49 57) s k)
             (re_lit 32 s (fun s' => one_char (in_range 49 57) s' k))))).
End Groups.

Definition format_regex_match (s : str) : option (Z * Z * Z * str) :=
  re_Y s (fun y s1 =>
  re_lit 45 s1 (fun s2 =>
  re_m s2 (fun m s3 =>
  re_lit 45 s3 (fun s4 =>
  re_d s4 (fun d rest => Some (y, m, d, rest)))))).

Definition strptime (s : str) : option date :=
  match format_regex_match s with
  | None => None
  | Some (y, m, d, rest) =>
      match rest with
      | [] => date_new y m d
      | _ :: _ => None
      end
  end.

(** [re.match(r'^\d{4}-\d{2}-\d{2}$', s)] *)
Definition re_match_date_pattern (s : str) : bool :=
  match s with
  | y1 :: y2 :: y3 :: y4 :: h1 :: m1 :: m2 :: h2 :: d1 :: d2 :: tl =>
      is_digit y1 && is_digit y2 && is_digit y3 && is_digit y4
      && (h1 =? 45)
      && is_digit m1 && is_digit m2
      && (h2 =? 45)
      && is_digit d1 && is_digit d2
      && match tl with
         | [] => true
         | [nl] => nl =? 10
         | _ => false
         end
  | _ => false
  end.

Definition validate_date (date_string : str) : bool :=
  match date_string with
  | [] => false
  | _ =>
      if negb (re_match_date_pattern date_string) then false
      else match strptime date_string with
           | Some _ => true
           | None => false
           end
  end.
End Decimal.

(** The table on the code points 0..255: the only decimal digits there
    are ['0'..'9']. *)
Definition latin1_table (decimal : Z -> option Z) : Prop :=
  forall c, 0 <= c < 256 ->
    decimal c = if (48 <=? c) && (c <=? 57) then Some (c - 48) else None.

(** The table holds the Arabic-Indic digits U+0660..U+0669. *)
Definition arabic_indic_table (decimal : Z -> option Z) : Prop :=
  forall v, 0 <= v <= 9 -> decimal (1632 + v) = Some v.

(** The part of the table of Unicode that the examples read. *)
Definition sample_table (c : Z) : option Z :=
  if (48 <=? c) && (c <=? 57) then Some (c - 48)
  else if (1632 <=? c) && (c <=? 1641) then Some (c - 1632)
  else None.

(** The code points of a string of the code points 0..255. *)
Fixpoint of_string (s : string) : str :=
  match s with
  | EmptyString => []
  | String c s' => code c :: of_string s'
  end.

(** The groups and the rest of a match, in code points. *)
Definition of_match (r : Z * Z * Z * string) : Z * Z * Z * str :=
  let '(y, m, d, rest) := r in (y, m, d, of_string rest).

End Unicode.

(** * Properties *)

(** ** Characters and the [strptime] groups *)

Ltac codes :=
  change (code "0") with 48 in *; change (code "1") with 49 in *;
  change (code "2") with 50 in *; change (code "3") with 51 in *;
  change (code "9") with 57 in *; change (code "-") with 45 in *;
  change (code " ") with 32 in *.

Ltac bool_props :=
  repeat match goal with
  | H : _ && _ = true |- _ => apply andb_true_iff in H; destruct H
  | H : _ && _ = false |- _ => apply andb_false_iff in H; destruct H
  | H : _ || _ = true |- _ => apply orb_true_iff in H; destruct H
  | H : _ || _ = false |- _ => apply orb_false_iff in H; destruct H
  | H : negb _ = true |- _ => apply negb_true_iff in H
  | H : negb _ = false |- _ => apply negb_false_iff in H
  | H : (_ <=? _) = true |- _ => apply Z.leb_le in H
  | H : (_ <=? _) = false |- _ => apply Z.leb_gt in H
  | H : (_ <? _) = true |- _ => apply Z.ltb_lt in H
  | H : (_ <? _) = false |- _ => apply Z.ltb_ge in H
  | H : (_ =? _) = true |- _ => apply Z.eqb_eq in H
  | H : (_ =? _) = false |- _ => apply Z.eqb_neq in H
  end.

Lemma in_range_true (lo hi c : ascii) :
  in_range lo hi c = true <-> code lo <= code c <= code hi.
Proof.
  unfold in_range. rewrite andb_true_iff, !Z.leb_le. tauto.
Qed.

Lemma in_range_false (lo hi c : ascii) :
  in_range lo hi c = false <-> code c < code lo \/ code hi < code c.
Proof.
  unfold in_range. rewrite andb_false_iff, !Z.leb_gt. tauto.
Qed.

Lemma is_digit_code (c : ascii) : is_digit c = true <-> 48 <= code c <= 57.
Proof. unfold is_digit. rewrite in_range_true. codes. tauto. Qed.

Lemma code_inj (a b : ascii) : code a = code b -> a = b.
Proof.
  unfold code. intros H. apply N2Z.inj in H.
  rewrite <- (ascii_N_embedding a), <- (ascii_N_embedding b). now rewrite H.
Qed.

Lemma char_eqb_code (a b : ascii) : (a =? b)%char = (code a =? code b).
Proof.
  destruct (Ascii.eqb_spec a b) as [->|Hne].
  - now rewrite Z.eqb_refl.
  - symmetry. apply Z.eqb_neq. intros H. now apply Hne, code_inj.
Qed.

Lemma orelse_None_r {A} (a : option A) : orelse a None = a.
Proof. now destruct a. Qed.

Ltac range_cases :=
  repeat match goal with
  | |- context [in_range ?lo ?hi ?c] =>
      let E := fresh "E" in
      destruct (in_range lo hi c) eqn:E;
      [apply in_range_true in E | apply in_range_false in E]
  end; codes.

(** The month group on two digits followed by the dash of the format. *)
Lemma re_m_digits {A} (m1 m2 : ascii) (rest : string) (k : Z -> string -> option A) :
  is_digit m1 = true -> is_digit m2 = true ->
  let mv := 10 * digit_value m1 + digit_value m2 in
  re_m (String m1 (String m2 rest)) (fun m s3 => re_lit "-" s3 (k m))
  = if (1 <=? mv) && (mv <=? 12) then re_lit "-" rest (k mv) else None.
Proof.
  intros H1 H2 mv. apply is_digit_code in H1, H2.
  unfold re_m, two_chars, one_char.
  assert (Hk : forall v, re_lit "-" (String m2 rest) (k v) = None).
  { intros v. unfold re_lit. rewrite char_eqb_code. codes.
    destruct (Z.eqb_spec (code m2) 45); [lia | reflexivity]. }
  rewrite Hk. fold mv.
  destruct ((1 <=? mv) && (mv <=? 12)) eqn:Em; subst mv;
    unfold digit_value in *; bool_props; range_cases; cbn [andb orelse];
    rewrite ?orelse_None_r; try reflexivity; try lia.
Qed.

(** The day group, as the last group of the format, on two digits. *)
Lemma re_d_digits {A} (d1 d2 : ascii) (tl : string) (f : Z -> string -> A) :
  is_digit d1 = true -> is_digit d2 = true ->
  let dv := 10 * digit_value d1 + digit_value d2 in
  re_d (String d1 (String d2 tl)) (fun d rest => Some (f d rest))
  = if (1 <=? dv) && (dv <=? 31) then Some (f dv tl)
    else if 1 <=? digit_value d1 then Some (f (digit_value d1) (String d2 tl))
    else None.
Proof.
  intros H1 H2 dv. apply is_digit_code in H1, H2.
  unfold re_d, two_chars, one_char, re_lit.
  rewrite char_eqb_code. codes.
  destruct (Z.eqb_spec (code d1) 32) as [E|_]; [lia|].
  fold dv.
  destruct ((1 <=? dv) && (dv <=? 31)) eqn:Ed;
    [|destruct (1 <=? digit_value d1) eqn:E1]; subst dv;
    unfold digit_value in *; bool_props; range_cases; cbn [andb orelse];
    try reflexivity; try lia.
Qed.

Lemma digit_value_range (c : ascii) :
  is_digit c = true -> 0 <= digit_value c <= 9.
Proof. intros H. apply is_digit_code in H. unfold digit_value. lia. Qed.

Lemma days_in_month_le_31 (y m : Z) : days_in_month y m <= 31.
Proof.
  unfold days_in_month, DAYS_IN_MONTH.
  destruct ((m =? 2) && is_leap y); [lia|].
  destruct m as [|p|p]; try lia.
  do 4 (try destruct p as [p|p|]; try lia).
Qed.

(** [strptime] on a string of the shape the pattern of [validate_date]
    admits: the date of its three numbers when nothing follows them. *)
Lemma strptime_shape (y1 y2 y3 y4 m1 m2 d1 d2 : ascii) (tl : string) :
  Forall (fun c => is_digit c = true) [y1; y2; y3; y4; m1; m2; d1; d2] ->
  strptime (String y1 (String y2 (String y3 (String y4 (String "-"
             (String m1 (String m2 (String "-" (String d1 (String d2 tl))))))))))
  = match tl with
    | EmptyString =>
        date_new (1000 * digit_value y1 + 100 * digit_value y2
                  + 10 * digit_value y3 + digit_value y4)
                 (10 * digit_value m1 + digit_value m2)
                 (10 * digit_value d1 + digit_value d2)
    | String _ _ => None
    end.
Proof.
  intros HF.
  repeat match goal with
         | H : Forall _ (_ :: _) |- _ => inversion H; subst; clear H
         end.
  unfold strptime, format_regex_match, re_Y.
  repeat match goal with H : is_digit _ = true |- _ => rewrite H end.
  cbn [andb]. unfold re_lit at 1. cbn [Ascii.eqb Bool.eqb].
  rewrite re_m_digits by assumption.
  set (y := 1000 * digit_value y1 + 100 * digit_value y2
            + 10 * digit_value y3 + digit_value y4).
  set (m := 10 * digit_value m1 + digit_value m2).
  set (d := 10 * digit_value d1 + digit_value d2).
  assert (Hd1 := digit_value_range d1 ltac:(assumption)).
  assert (Hd2 := digit_value_range d2 ltac:(assumption)).
  destruct ((1 <=? m) && (m <=? 12)) eqn:Em.
  - unfold re_lit. cbn [Ascii.eqb Bool.eqb].
    rewrite (re_d_digits d1 d2 tl (fun d rest => (y, m, d, rest))) by assumption.
    fold d.
    destruct ((1 <=? d) && (d <=? 31)) eqn:Ed.
    + reflexivity.
    + assert (Hn : date_new y m d = None).
      { unfold date_new, check_date_fields.
        assert (Hdim := days_in_month_le_31 y m).
        destruct (1 <=? d) eqn:E1; destruct (d <=? days_in_month y m) eqn:E2;
          rewrite ?andb_false_r; try reflexivity.
        bool_props; lia. }
      destruct (1 <=? digit_value d1); destruct tl; now rewrite ?Hn.
  - assert (Hn : date_new y m d = None).
    { unfold date_new, check_date_fields.
      destruct (1 <=? m) eqn:E1; destruct (m <=? 12) eqn:E2;
        rewrite ?andb_false_r; cbn [andb]; try reflexivity; discriminate. }
    now destruct tl.
Qed.

Lemma leap_year_is_leap (y : Z) : Spec.leap_year y = is_leap y.
Proof.
  unfold Spec.leap_year, is_leap.
  destruct (Z.eqb_spec (y mod 400) 0) as [E400|E400];
    destruct (Z.eqb_spec (y mod 100) 0) as [E100|E100];
    destruct (Z.eqb_spec (y mod 4) 0) as [E4|E4];
    try reflexivity; exfalso; Z.div_mod_to_equations; lia.
Qed.

Lemma month_length_days_in_month (y m : Z) :
  1 <= m <= 12 -> Spec.month_length y m = days_in_month y m.
Proof.
  intros Hm. unfold Spec.month_length, days_in_month.
  rewrite leap_year_is_leap.
  assert (H : m = 1 \/ m = 2 \/ m = 3 \/ m = 4 \/ m = 5 \/ m = 6 \/ m = 7
              \/ m = 8 \/ m = 9 \/ m = 10 \/ m = 11 \/ m = 12) by lia.
  destruct H as [->|[->|[->|[->|[->|[->|[->|[->|[->|[->|[->| ->]]]]]]]]]]];
    cbn; try reflexivity; now destruct (is_leap y).
Qed.

Lemma check_date_fields_real (y m d : Z) :
  y <= 9999 ->
  check_date_fields y m d = true <-> Spec.real_calendar_date y m d.
Proof.
  intros Hy. unfold check_date_fields, Spec.real_calendar_date, MINYEAR, MAXYEAR.
  rewrite !andb_true_iff, !Z.leb_le.
  split.
  - intros [[[[[H1 H2] H3] H4] H5] H6].
    rewrite month_length_days_in_month by lia. lia.
  - intros [H1 [H2 H3]].
    rewrite month_length_days_in_month in H3 by lia. lia.
Qed.

Lemma re_match_date_pattern_shape (s : string) :
  re_match_date_pattern s = true ->
  exists y1 y2 y3 y4 m1 m2 d1 d2 tl,
    s = String y1 (String y2 (String y3 (String y4 (String "-"
          (String m1 (String m2 (String "-" (String d1 (String d2 tl)))))))))
    /\ Forall (fun c => is_digit c = true) [y1; y2; y3; y4; m1; m2; d1; d2].
Proof.
  destruct s as [|y1 [|y2 [|y3 [|y4 [|h1 [|m1 [|m2 [|h2 [|d1 [|d2 tl]]]]]]]]]];
    cbn [re_match_date_pattern]; try discriminate.
  intros H. bool_props.
  repeat match goal with
         | H : (_ =? _)%char = true |- _ => apply Ascii.eqb_eq in H; subst
         end.
  exists y1, y2, y3, y4, m1, m2, d1, d2, tl. split; [reflexivity|].
  repeat constructor; assumption.
Qed.

(** ** [validate_date] *)

Lemma validate_date_unfold (s : string) :
  validate_date s = true <->
  re_match_date_pattern s = true /\ exists d, strptime s = Some d.
Proof.
  unfold validate_date. destruct s as [|c s'].
  - cbn. split; [discriminate | intros [H _]; discriminate].
  - destruct (re_match_date_pattern (String c s')); cbn [negb].
    + destruct (strptime (String c s')) as [d|].
      * split; [intros _; split; [reflexivity | now exists d] | reflexivity].
      * split; [discriminate | intros [_ [d Hd]]; discriminate].
    + split; [discriminate | intros [H _]; discriminate].
Qed.

(** On the strings of the code points 0..255, [validate_date] answers
    [true] exactly on the strings made of four digits ['0'..'9'], a dash,
    two digits, a dash and two digits whose numbers are a real calendar
    date, and it answers as the specification says on its four examples. *)
Theorem validate_date_spec :
  (forall s : string,
      validate_date s = true <->
      exists y m d, Spec.has_shape s y m d /\ Spec.real_calendar_date y m d)
  /\ validate_date "2024-02-30" = false
  /\ validate_date "2024-02-29" = true
  /\ validate_date "not-a-date" = false
  /\ validate_date "" = false.
Proof.
  split; [|repeat split; reflexivity].
  intros s. rewrite validate_date_unfold. split.
  - intros [Hre [dt Hdt]].
    destruct (re_match_date_pattern_shape s Hre)
      as (y1 & y2 & y3 & y4 & m1 & m2 & d1 & d2 & tl & -> & HF).
    rewrite (strptime_shape _ _ _ _ _ _ _ _ tl HF) in Hdt.
    destruct tl as [|c tl']; [|discriminate].
    unfold date_new in Hdt.
    match type of Hdt with
    | (if check_date_fields ?y ?m ?d then _ else _) = _ =>
        exists y, m, d; destruct (check_date_fields y m d) eqn:Hc; [|discriminate]
    end.
    split.
    + exists y1, y2, y3, y4, m1, m2, d1, d2. repeat split; assumption.
    + apply check_date_fields_real; [|assumption].
      repeat match goal with
             | H : Forall _ (_ :: _) |- _ => inversion H; subst; clear H
             end.
      repeat match goal with
             | H : is_digit _ = true |- _ => apply digit_value_range in H
             end.
      lia.
  - intros (y & m & d & Hshape & Hreal).
    destruct Hshape as (y1 & y2 & y3 & y4 & m1 & m2 & d1 & d2 & -> & HF & -> & -> & ->).
    split.
    + cbn [re_match_date_pattern].
      repeat match goal with
             | H : Forall _ (_ :: _) |- _ => inversion H; subst; clear H
             end.
      repeat match goal with H : is_digit _ = true |- _ => rewrite H end.
      reflexivity.
    + rewrite (strptime_shape _ _ _ _ _ _ _ _ "" HF).
      unfold date_new.
      apply check_date_fields_real in Hreal.
      * rewrite Hreal. eauto.
      * repeat match goal with
               | H : Forall _ (_ :: _) |- _ => inversion H; subst; clear H
               end.
        repeat match goal with
               | H : is_digit _ = true |- _ => apply digit_value_range in H
               end.
        lia.
Qed.

(** ** [validate_date] beyond the code points 0..255 *)

Lemma code_range (c : ascii) : 0 <= code c < 256.
Proof.
  unfold code. pose proof (N_ascii_bounded c) as H.
  change 256 with (Z.of_N 256). lia.
Qed.

Lemma in_range_digit (lo hi c : ascii) :
  (48 <=? code lo) = true -> (code hi <=? 57) = true ->
  in_range lo hi c = true -> is_digit c = true.
Proof.
  intros Hlo Hhi H. apply Z.leb_le in Hlo, Hhi.
  apply in_range_true in H. apply is_digit_code. lia.
Qed.

Section Latin1.
Variable decimal : Z -> option Z.
Hypothesis Hlatin : Unicode.latin1_table decimal.

Lemma is_digit_of_code (c : ascii) :
  Unicode.is_digit decimal (code c) = is_digit c.
Proof.
  unfold Unicode.is_digit. rewrite (Hlatin (code c) (code_range c)).
  unfold is_digit, in_range. codes. now destruct ((48 <=? code c) && (code c <=? 57)).
Qed.

Lemma digit_value_of_code (c : ascii) :
  is_digit c = true -> Unicode.digit_value decimal (code c) = digit_value c.
Proof.
  intros H. unfold Unicode.digit_value. rewrite (Hlatin (code c) (code_range c)).
  unfold is_digit, in_range in H. codes. now rewrite H.
Qed.

Section Continuations.
Context {A B : Type} (f : B -> A).

Lemma orelse_map (a b : option B) :
  option_map f (orelse a b) = orelse (option_map f a) (option_map f b).
Proof. now destruct a. Qed.

Lemma re_lit_of_string (c : ascii) (s : string)
    (ku : Unicode.str -> option A) (k : string -> option B) :
  (forall rest, ku (Unicode.of_string rest) = option_map f (k rest)) ->
  Unicode.re_lit (code c) (Unicode.of_string s) ku = option_map f (re_lit c s k).
Proof.
  intros Hk. destruct s as [|a s]; [reflexivity|].
  cbn [Unicode.of_string Unicode.re_lit re_lit]. rewrite char_eqb_code.
  destruct (code a =? code c); [apply Hk | reflexivity].
Qed.

Lemma two_chars_of_string (class1 class2 : Z -> bool) (lo1 hi1 lo2 hi2 : ascii)
    (s : string) (ku : Z -> Unicode.str -> option A) (k : Z -> string -> option B) :
  (forall c, class1 (code c) = in_range lo1 hi1 c) ->
  (forall c, class2 (code c) = in_range lo2 hi2 c) ->
  (forall c, in_range lo1 hi1 c = true -> is_digit c = true) ->
  (forall c, in_range lo2 hi2 c = true -> is_digit c = true) ->
  (forall v rest, ku v (Unicode.of_string rest) = option_map f (k v rest)) ->
  Unicode.two_chars decimal class1 class2 (Unicode.of_string s) ku
  = option_map f (two_chars lo1 hi1 lo2 hi2 s k).
Proof.
  intros H1 H2 D1 D2 Hk. destruct s as [|a [|b s]]; try reflexivity.
  cbn [Unicode.of_string Unicode.two_chars two_chars]. rewrite H1, H2.
  destruct (in_range lo1 hi1 a) eqn:Ea; [|reflexivity].
  destruct (in_range lo2 hi2 b) eqn:Eb; [|reflexivity].
  cbn [andb].
  rewrite (digit_value_of_code a (D1 a Ea)), (digit_value_of_code b (D2 b Eb)).
  apply Hk.
Qed.

Lemma one_char_of_string (class : Z -> bool) (lo hi : ascii)
    (s : string) (ku : Z -> Unicode.str -> option A) (k : Z -> string -> option B) :
  (forall c, class (code c) = in_range lo hi c) ->
  (forall c, in_range lo hi c = true -> is_digit c = true) ->
  (forall v rest, ku v (Unicode.of_string rest) = option_map f (k v rest)) ->
  Unicode.one_char decimal class (Unicode.of_string s) ku
  = option_map f (one_char lo hi s k).
Proof.
  intros H1 D1 Hk. destruct s as [|a s]; [reflexivity|].
  cbn [Unicode.of_string Unicode.one_char one_char]. rewrite H1.
  destruct (in_range lo hi a) eqn:Ea; [|reflexivity].
  rewrite (digit_value_of_code a (D1 a Ea)). apply Hk.
Qed.

Lemma re_Y_of_string (s : string)
    (ku : Z -> Unicode.str -> option A) (k : Z -> string -> option B) :
  (forall v rest, ku v (Unicode.of_string rest) = option_map f (k v rest)) ->
  Unicode.re_Y decimal (Unicode.of_string s) ku = option_map f (re_Y s k).
Proof.
  intros Hk. destruct s as [|a [|b [|c [|d s]]]]; try reflexivity.
  cbn [Unicode.of_string Unicode.re_Y re_Y]. rewrite !is_digit_of_code.
  destruct (is_digit a) eqn:Ea; [|reflexivity].
  destruct (is_digit b) eqn:Eb; [|reflexivity].
  destruct (is_digit c) eqn:Ec; [|reflexivity].
  destruct (is_digit d) eqn:Ed; [|reflexivity].
  cbn [andb]. rewrite !digit_value_of_code by assumption. apply Hk.
Qed.

Lemma re_m_of_string (s : string)
    (ku : Z -> Unicode.str -> option A) (k : Z -> string -> option B) :
  (forall v rest, ku v (Unicode.of_string rest) = option_map f (k v rest)) ->
  Unicode.re_m decimal (Unicode.of_string s) ku = option_map f (re_m s k).
Proof.
  intros Hk. unfold Unicode.re_m, re_m. rewrite !orelse_map.
  rewrite (two_chars_of_string _ _ "1" "1" "0" "2" s ku k),
    (two_chars_of_string _ _ "0" "0" "1" "9" s ku k),
    (one_char_of_string _ "1" "9" s ku k);
    try reflexivity; try exact Hk;
    intros c; apply in_range_digit; reflexivity.
Qed.

Lemma re_d_of_string (s : string)
    (ku : Z -> Unicode.str -> option A) (k : Z -> string -> option B) :
  (forall v rest, ku v (Unicode.of_string rest) = option_map f (k v rest)) ->
  Unicode.re_d decimal (Unicode.of_string s) ku = option_map f (re_d s k).
Proof.
  intros Hk. unfold Unicode.re_d, re_d. rewrite !orelse_map.
  rewrite (two_chars_of_string _ _ "3" "3" "0" "1" s ku k),
    (two_chars_of_string _ _ "1" "2" "0" "9" s ku k),
    (two_chars_of_string _ _ "0" "0" "1" "9" s ku k),
    (one_char_of_string _ "1" "9" s ku k);
    try reflexivity; try exact Hk;
    try (intros c; apply in_range_digit; reflexivity);
    try (intros c; apply is_digit_of_code).
  do 4 f_equal.
  apply (re_lit_of_string " " s). intros rest.
  apply one_char_of_string; try reflexivity; try exact Hk.
  intros c; apply in_range_digit; reflexivity.
Qed.
End Continuations.

Lemma format_regex_match_of_string (s : string) :
  Unicode.format_regex_match decimal (Unicode.of_string s)
  = option_map Unicode.of_match (format_regex_match s).
Proof.
  unfold Unicode.format_regex_match, format_regex_match.
  apply re_Y_of_string. intros y s1.
  apply (re_lit_of_string Unicode.of_match "-"). intros s2.
  apply re_m_of_string. intros m s3.
  apply (re_lit_of_string Unicode.of_match "-"). intros s4.
  apply re_d_of_string. intros d rest. reflexivity.
Qed.

Lemma strptime_of_string (s : string) :
  Unicode.strptime decimal (Unicode.of_string s) = strptime s.
Proof.
  unfold Unicode.strptime, strptime. rewrite format_regex_match_of_string.
  destruct (format_regex_match s) as [[[[y m] d] rest]|]; [|reflexivity].
  cbn [option_map Unicode.of_match]. now destruct rest.
Qed.

Lemma re_match_date_pattern_of_string (s : string) :
  Unicode.re_match_date_pattern decimal (Unicode.of_string s)
  = re_match_date_pattern s.
Proof.
  destruct s as [|y1 [|y2 [|y3 [|y4 [|h1 [|m1 [|m2 [|h2 [|d1 [|d2 tl]]]]]]]]]];
    try reflexivity.
  cbn [Unicode.of_string Unicode.re_match_date_pattern re_match_date_pattern].
  rewrite !is_digit_of_code, !char_eqb_code.
  do 10 f_equal. destruct tl as [|nl [|c tl]]; try reflexivity.
  cbn [Unicode.of_string]. now rewrite char_eqb_code.
Qed.

(** On a string of the code points 0..255 the two models of
    [validate_date] agree. *)
Lemma validate_date_of_string (s : string) :
  Unicode.validate_date decimal (Unicode.of_string s) = validate_date s.
Proof.
  unfold Unicode.validate_date, validate_date.
  rewrite re_match_date_pattern_of_string, strptime_of_string.
  now destruct s.
Qed.
End Latin1.

Lemma sample_table_latin1 : Unicode.latin1_table Unicode.sample_table.
Proof.
  intros c Hc. unfold Unicode.sample_table.
  destruct ((48 <=? c) && (c <=? 57)); [reflexivity|].
  destruct (Z.leb_spec 1632 c); [lia | reflexivity].
Qed.

Lemma sample_table_arabic_indic : Unicode.arabic_indic_table Unicode.sample_table.
Proof.
  intros v Hv. unfold Unicode.sample_table.
  destruct (Z.leb_spec 48 (1632 + v)); [|lia].
  destruct (Z.leb_spec (1632 + v) 57); [lia|]. cbn [andb].
  destruct (Z.leb_spec 1632 (1632 + v)); [|lia].
  destruct (Z.leb_spec (1632 + v) 1641); [|lia]. cbn [andb].
  f_equal. lia.
Qed.

(** C8.  [validate_date] reads a decimal digit of any script as a digit in
    the year and in the second place of the day, and only ['0'..'9'] in
    the month and in the first place of the day.  With the Arabic-Indic
    digits U+0660..U+0669 in the table of decimal digits, it accepts the
    string whose year is 2024 written in these digits and which reads on
    as -01-15, and it rejects the string 2024-, month 01 written in these
    digits, -15.  On the strings of the code points 0..255 it answers
    [true] exactly on four digits ['0'..'9'], a dash, two digits, a dash
    and two digits whose numbers are a real calendar date. *)
Theorem validate_date_other_digits (decimal : Z -> option Z) :
  Unicode.latin1_table decimal ->
  Unicode.arabic_indic_table decimal ->
  Unicode.validate_date decimal [1634; 1632; 1634; 1636; 45; 48; 49; 45; 49; 53]
  = true
  /\ Unicode.validate_date decimal [50; 48; 50; 52; 45; 1632; 1633; 45; 49; 53]
     = false
  /\ (forall s : string,
        Unicode.validate_date decimal (Unicode.of_string s) = true <->
        exists y m d, Spec.has_shape s y m d /\ Spec.real_calendar_date y m d).
Proof.
  intros Hlatin Harabic.
  assert (D : forall c v, decimal c = Some v ->
              Unicode.is_digit decimal c = true
              /\ Unicode.digit_value decimal c = v).
  { intros c v E. unfold Unicode.is_digit, Unicode.digit_value. now rewrite E. }
  assert (N : forall c, decimal c = None -> Unicode.is_digit decimal c = false).
  { intros c E. unfold Unicode.is_digit. now rewrite E. }
  destruct (D 1634 2 (Harabic 2 ltac:(lia))) as [I2 V2].
  destruct (D 1632 0 (Harabic 0 ltac:(lia))) as [I0 V0].
  destruct (D 1633 1 (Harabic 1 ltac:(lia))) as [I1 V1].
  destruct (D 1636 4 (Harabic 4 ltac:(lia))) as [I4 V4].
  destruct (D 48 0 (Hlatin 48 ltac:(lia))) as [J0 W0].
  destruct (D 49 1 (Hlatin 49 ltac:(lia))) as [J1 W1].
  destruct (D 50 2 (Hlatin 50 ltac:(lia))) as [J2 W2].
  destruct (D 52 4 (Hlatin 52 ltac:(lia))) as [J4 W4].
  destruct (D 53 5 (Hlatin 53 ltac:(lia))) as [J5 W5].
  pose proof (N 45 (Hlatin 45 ltac:(lia))) as Jdash.
  split; [|split].
  - unfold Unicode.validate_date, Unicode.re_match_date_pattern,
      Unicode.strptime, Unicode.format_regex_match, Unicode.re_Y,
      Unicode.re_m, Unicode.re_d, Unicode.re_lit, Unicode.two_chars,
      Unicode.one_char.
    rewrite ?I0, ?I1, ?I2, ?I4, ?J0, ?J1, ?J2, ?J4, ?J5,
      ?V0, ?V1, ?V2, ?V4, ?W0, ?W1, ?W2, ?W4, ?W5.
    reflexivity.
  - unfold Unicode.validate_date, Unicode.re_match_date_pattern,
      Unicode.strptime, Unicode.format_regex_match, Unicode.re_Y,
      Unicode.re_m, Unicode.re_d, Unicode.re_lit, Unicode.two_chars,
      Unicode.one_char.
    rewrite ?I0, ?I1, ?I2, ?I4, ?J0, ?J1, ?J2, ?J4, ?J5,
      ?V0, ?V1, ?V2, ?V4, ?W0, ?W1, ?W2, ?W4, ?W5.
    reflexivity.
  - intros s. rewrite (validate_date_of_string decimal Hlatin s).
    apply (proj1 validate_date_spec).
Qed.

Lemma validate_date_other_digits_witness :
  Unicode.validate_date Unicode.sample_table
    [1634; 1632; 1634; 1636; 45; 48; 49; 45; 49; 53] = true
  /\ Unicode.validate_date Unicode.sample_table
       [50; 48; 50; 52; 45; 1632; 1633; 45; 49; 53] = false.
Proof.
  destruct (validate_date_other_digits Unicode.sample_table
              sample_table_latin1 sample_table_arabic_indic) as (H1 & H2 & _).
  split; [exact H1 | exact H2].
Defined.

(** ** Ordinals of dates *)

Ltac table_simpl :=
  cbv [DAYS_BEFORE_MONTH DAYS_IN_MONTH Z.eqb Z.ltb Z.compare Pos.compare
       Pos.compare_cont Pos.eqb andb].

Ltac month_cases m :=
  let H := fresh "Hm" in
  assert (H : m = 1 \/ m = 2 \/ m = 3 \/ m = 4 \/ m = 5 \/ m = 6 \/ m = 7
              \/ m = 8 \/ m = 9 \/ m = 10 \/ m = 11 \/ m = 12) by lia;
  destruct H as [->|[->|[->|[->|[->|[->|[->|[->|[->|[->|[->| ->]]]]]]]]]]].

Lemma check_date_fields_iff (y m d : Z) :
  check_date_fields y m d = true <->
  1 <= y <= 9999 /\ 1 <= m <= 12 /\ 1 <= d <= days_in_month y m.
Proof.
  unfold check_date_fields, MINYEAR, MAXYEAR.
  rewrite !andb_true_iff, !Z.leb_le. tauto.
Qed.

Lemma days_before_year_succ (y : Z) :
  days_before_year (y + 1) = days_before_year y + year_length y.
Proof.
  unfold days_before_year, year_length, is_leap.
  replace (y + 1 - 1) with y by lia.
  destruct (Z.eqb_spec (y mod 4) 0) as [E4|E4];
    destruct (Z.eqb_spec (y mod 100) 0) as [E100|E100];
    destruct (Z.eqb_spec (y mod 400) 0) as [E400|E400];
    cbn [negb andb orb]; Z.div_mod_to_equations; lia.
Qed.

Lemma day_of_year_range (y m d : Z) :
  1 <= m <= 12 -> 1 <= d <= days_in_month y m ->
  1 <= day_of_year y m d <= year_length y.
Proof.
  intros Hm Hd. revert Hd.
  unfold day_of_year, days_before_month, days_in_month, year_length.
  month_cases m; table_simpl; destruct (is_leap y); lia.
Qed.

(** Within one year the day of the year orders dates as their
    [(month, day)] pairs. *)
Lemma day_of_year_lt (y m d m' d' : Z) :
  1 <= m <= 12 -> 1 <= d <= days_in_month y m ->
  1 <= m' <= 12 -> 1 <= d' <= days_in_month y m' ->
  (m < m' \/ (m = m' /\ d < d')) <-> day_of_year y m d < day_of_year y m' d'.
Proof.
  intros Hm Hd Hm' Hd'. revert Hd Hd'.
  unfold day_of_year, days_before_month, days_in_month.
  month_cases m; month_cases m'; table_simpl; destruct (is_leap y); lia.
Qed.

(** The same month and day one year later lies at most one day of the
    year away. *)
Lemma day_of_year_next (y m d : Z) :
  day_of_year y m d - 1 <= day_of_year (y + 1) m d <= day_of_year y m d + 1.
Proof.
  unfold day_of_year, days_before_month.
  destruct ((2 <? m) && is_leap y); destruct ((2 <? m) && is_leap (y + 1)); lia.
Qed.

Lemma toordinal_split (d : date) :
  toordinal d = days_before_year (year d) + day_of_year (year d) (month d) (day d).
Proof. unfold toordinal, ymd2ord, day_of_year. lia. Qed.

Lemma date_lt_iff (a b : date) :
  date_lt a b = true <->
  year a < year b
  \/ (year a = year b
      /\ (month a < month b \/ (month a = month b /\ day a < day b))).
Proof.
  unfold date_lt.
  rewrite orb_true_iff, andb_true_iff, orb_true_iff, andb_true_iff,
    !Z.ltb_lt, !Z.eqb_eq.
  reflexivity.
Qed.

(** ** [calculate_days_until_renewal] *)

Lemma strptime_valid (s : string) (d : date) :
  strptime s = Some d -> valid d.
Proof.
  unfold strptime, date_new, valid.
  destruct (format_regex_match s) as [[[[y m] dd] rest]|]; [|discriminate].
  destruct rest; [|discriminate].
  destruct (check_date_fields y m dd) eqn:Hc; [|discriminate].
  intros [= <-]. exact Hc.
Qed.

Lemma validate_date_strptime (s : string) :
  validate_date s = true -> exists d, strptime s = Some d /\ valid d.
Proof.
  intros H. apply validate_date_unfold in H. destruct H as [_ [d Hd]].
  exists d. split; [assumption | now apply strptime_valid in Hd].
Qed.

(** Outside the leap-day defect: when the dates it builds exist,
    [calculate_days_until_renewal] returns the days to the next anniversary
    as the specification defines them, a number between 0 and 366 that is 0
    exactly on the anniversary. *)
Theorem calculate_days_until_renewal_anniversary
    (today renewal : date) (s : string) :
  valid today ->
  validate_date s = true ->
  strptime s = Some renewal ->
  anniversary_exists today renewal = true ->
  exists r,
    calculate_days_until_renewal today s = Return r
    /\ r = Spec.days_until_next_anniversary (month renewal) (day renewal) today
    /\ 0 <= r <= 366
    /\ (r = 0 <-> month renewal = month today /\ day renewal = day today).
Proof.
  intros Ht Hv Hs Hex.
  unfold calculate_days_until_renewal, Spec.days_until_next_anniversary.
  rewrite Hv, Hs. cbn [negb].
  unfold anniversary_exists in Hex. apply andb_true_iff in Hex.
  destruct Hex as [Hthis Hnext].
  unfold replace_year, date_new. rewrite Hthis.
  set (cand := mkdate (year today) (month renewal) (day renewal)) in *.
  apply check_date_fields_iff in Hthis. destruct Hthis as (Hy & Hm & Hd).
  apply check_date_fields_iff in Ht. destruct Ht as (Hty & Htm & Htd).
  assert (Hcand : ymd2ord (year today) (month renewal) (day renewal)
                  = toordinal cand) by reflexivity.
  rewrite Hcand, (toordinal_split cand), (toordinal_split today).
  cbn [year month day cand].
  pose proof (day_of_year_lt (year today) (month renewal) (day renewal)
                (month today) (day today) Hm Hd Htm Htd) as Hlt.
  pose proof (day_of_year_lt (year today) (month today) (day today)
                (month renewal) (day renewal) Htm Htd Hm Hd) as Hgt.
  pose proof (day_of_year_range _ _ _ Hm Hd) as Hr1.
  pose proof (day_of_year_range _ _ _ Htm Htd) as Hr2.
  destruct (date_lt cand today) eqn:Elt.
  - cbn [negb orb] in Hnext. rewrite Hnext.
    apply check_date_fields_iff in Hnext. destruct Hnext as (Hy' & _ & Hd').
    pose proof (day_of_year_range _ _ _ Hm Hd') as Hr3.
    pose proof (day_of_year_next (year today) (month renewal) (day renewal)) as Hn.
    apply date_lt_iff in Elt. cbn [year month day cand] in Elt.
    assert (Hdoy : day_of_year (year today) (month renewal) (day renewal)
                   < day_of_year (year today) (month today) (day today))
      by (apply Hlt; lia).
    eexists. split; [reflexivity|].
    unfold sub_days. rewrite !toordinal_split. cbn [year month day].
    rewrite days_before_year_succ.
    assert (Hyl : 365 <= year_length (year today) <= 366)
      by (unfold year_length; destruct (is_leap (year today)); lia).
    destruct (Z.ltb_spec
                (days_before_year (year today)
                 + day_of_year (year today) (month renewal) (day renewal))
                (days_before_year (year today)
                 + day_of_year (year today) (month today) (day today)));
      [|lia].
    unfold ymd2ord. rewrite days_before_year_succ.
    unfold day_of_year in *. repeat split; lia.
  - assert (Hnlt : ~ (month renewal < month today
                      \/ (month renewal = month today /\ day renewal < day today))).
    { intros Hc. assert (date_lt cand today = true); [|congruence].
      apply date_lt_iff. cbn [year month day cand]. right. split; [reflexivity|exact Hc]. }
    assert (Hdoy : ~ day_of_year (year today) (month renewal) (day renewal)
                     < day_of_year (year today) (month today) (day today))
      by (intros Hc; apply Hnlt, Hlt, Hc).
    eexists. split; [reflexivity|].
    unfold sub_days. rewrite !toordinal_split. cbn [year month day cand].
    destruct (Z.ltb_spec
                (days_before_year (year today)
                 + day_of_year (year today) (month renewal) (day renewal))
                (days_before_year (year today)
                 + day_of_year (year today) (month today) (day today)));
      [lia|].
    assert (Hyl : year_length (year today) <= 366)
      by (unfold year_length; destruct (is_leap (year today)); lia).
    assert (Hngt : day_of_year (year today) (month renewal) (day renewal)
                   = day_of_year (year today) (month today) (day today)
                   -> month renewal = month today /\ day renewal = day today).
    { intros E.
      assert (~ (month today < month renewal
                 \/ (month today = month renewal /\ day today < day renewal)))
        by (intros Hc; apply Hgt in Hc; lia).
      lia. }
    repeat split; lia.
Qed.

(** When one of the dates it builds does not exist the function raises. *)
Lemma calculate_days_until_renewal_raises (today renewal : date) (s : string) :
  validate_date s = true ->
  strptime s = Some renewal ->
  anniversary_exists today renewal = false ->
  calculate_days_until_renewal today s = Raise calc_error.
Proof.
  intros Hv Hs Hex.
  unfold calculate_days_until_renewal. rewrite Hv, Hs. cbn [negb].
  unfold anniversary_exists in Hex. unfold replace_year, date_new.
  destruct (check_date_fields (year today) (month renewal) (day renewal));
    [|reflexivity].
  cbn [andb] in Hex. apply orb_false_iff in Hex. destruct Hex as [H1 H2].
  apply negb_false_iff in H1. rewrite H1, H2. reflexivity.
Qed.

(** Every anniversary but 29 February exists in every year. *)
Lemma anniversary_exists_not_leap_day (today renewal : date) :
  valid today -> valid renewal -> year today < 9999 ->
  ~ (month renewal = 2 /\ day renewal = 29) ->
  anniversary_exists today renewal = true.
Proof.
  intros Ht Hr Hy Hne.
  apply check_date_fields_iff in Ht, Hr.
  destruct Ht as (Hty & _ & _). destruct Hr as (_ & Hm & Hd).
  assert (Hdim : forall y, day renewal <= days_in_month y (month renewal)).
  { intros y. revert Hd Hne. unfold days_in_month.
    generalize (day renewal). intros d.
    month_cases (month renewal); table_simpl;
      destruct (is_leap (year renewal)); destruct (is_leap y); lia. }
  unfold anniversary_exists.
  assert (H1 : check_date_fields (year today) (month renewal) (day renewal) = true)
    by (apply check_date_fields_iff; specialize (Hdim (year today)); lia).
  assert (H2 : check_date_fields (year today + 1) (month renewal) (day renewal) = true)
    by (apply check_date_fields_iff; specialize (Hdim (year today + 1)); lia).
  rewrite H1, H2. now rewrite orb_true_r.
Qed.

(** C2.  The error branch is reachable under the precondition: for the
    valid string 2024-02-29 and a today in 2023 the function builds
    29 February 2023 and raises instead of returning a number. *)
Theorem calculate_days_until_renewal_leap_day_raises :
  validate_date "2024-02-29" = true
  /\ calculate_days_until_renewal (mkdate 2023 6 15) "2024-02-29"
     = Raise calc_error.
Proof. split; reflexivity. Qed.

(** C1.  On the valid string 2020-02-29 and today 2021-03-01 the function
    returns no day count at all: it raises while it builds the candidate of
    today's year. *)
Theorem calculate_days_until_renewal_no_candidate :
  validate_date "2020-02-29" = true
  /\ valid (mkdate 2021 3 1)
  /\ calculate_days_until_renewal (mkdate 2021 3 1) "2020-02-29"
     = Raise calc_error
  /\ forall r, calculate_days_until_renewal (mkdate 2021 3 1) "2020-02-29"
               <> Return r.
Proof. repeat split; try reflexivity. intros r H. discriminate H. Qed.

(** C7.  On the valid string 2024-02-29 and today 2024-03-01 the
    anniversary of the leap year is past and the one of 2025 does not
    exist: the function raises, so no result lies in the interval. *)
Theorem calculate_days_until_renewal_no_result_in_range :
  validate_date "2024-02-29" = true
  /\ valid (mkdate 2024 3 1)
  /\ ~ exists r, calculate_days_until_renewal (mkdate 2024 3 1) "2024-02-29"
                 = Return r /\ 0 <= r <= 366.
Proof.
  repeat split; try reflexivity. intros [r [H _]]. discriminate H.
Qed.

(** ** Stable sorting *)

Section StableSortFacts.
Context {A K : Type} (key : A -> K) (le : K -> K -> bool).
Hypothesis le_total : forall a b, le a b = true \/ le b a = true.
Hypothesis le_trans : forall a b c, le a b = true -> le b c = true -> le a c = true.

Let ordered (a b : A) : Prop := le (key a) (key b) = true.

Lemma insert_sorted_perm (x : A) (l : list A) :
  Permutation (insert_sorted key le x l) (x :: l).
Proof.
  induction l as [|y l IH]; cbn [insert_sorted]; [reflexivity|].
  destruct (le (key x) (key y)); [reflexivity|].
  rewrite IH. apply perm_swap.
Qed.

Lemma stable_sort_perm (l : list A) : Permutation (stable_sort key le l) l.
Proof.
  induction l as [|x l IH]; cbn [stable_sort fold_right]; [reflexivity|].
  fold (stable_sort key le l). rewrite insert_sorted_perm. now constructor.
Qed.

Lemma insert_sorted_sorted (x : A) (l : list A) :
  StronglySorted ordered l -> StronglySorted ordered (insert_sorted key le x l).
Proof.
  induction 1 as [|y l Hs IH Hy]; cbn [insert_sorted].
  - repeat constructor.
  - destruct (le (key x) (key y)) eqn:E.
    + constructor; [now constructor|].
      constructor; [exact E|].
      eapply Forall_impl; [|exact Hy].
      intros z Hz. unfold ordered in *. eauto.
    + constructor; [exact IH|].
      rewrite insert_sorted_perm. constructor; [|exact Hy].
      unfold ordered. destruct (le_total (key x) (key y)); congruence.
Qed.

Lemma stable_sort_sorted (l : list A) :
  StronglySorted ordered (stable_sort key le l).
Proof.
  induction l as [|x l IH]; cbn [stable_sort fold_right]; [constructor|].
  now apply insert_sorted_sorted.
Qed.

Lemma insert_sorted_head (x : A) (l : list A) :
  Forall (ordered x) l -> insert_sorted key le x l = x :: l.
Proof.
  intros H. destruct H as [|y l Hy _]; cbn [insert_sorted]; [reflexivity|].
  unfold ordered in Hy. now rewrite Hy.
Qed.

Lemma filter_insert_sorted (p : A -> bool) (x : A) (l : list A) :
  StronglySorted ordered l ->
  filter p (insert_sorted key le x l)
  = if p x then insert_sorted key le x (filter p l) else filter p l.
Proof.
  induction 1 as [|y l Hs IH Hy]; cbn [insert_sorted filter].
  - now destruct (p x).
  - destruct (le (key x) (key y)) eqn:E.
    + cbn [filter]. destruct (p x); [|reflexivity].
      symmetry. apply insert_sorted_head.
      assert (Hall : Forall (ordered x) (y :: l)).
      { constructor; [exact E|].
        eapply Forall_impl; [|exact Hy].
        intros z Hz. unfold ordered in *. eauto. }
      apply Forall_forall. intros z Hz.
      change (if p y then y :: filter p l else filter p l)
        with (filter p (y :: l)) in Hz.
      apply filter_In in Hz. destruct Hz as [Hz _].
      rewrite Forall_forall in Hall. now apply Hall.
    + cbn [filter]. rewrite IH.
      destruct (p x), (p y); cbn [insert_sorted]; rewrite ?E; reflexivity.
Qed.

(** Filtering commutes with sorting: a query with a [WHERE] clause lists
    its rows in the order the query without it does. *)
Lemma filter_stable_sort (p : A -> bool) (l : list A) :
  filter p (stable_sort key le l) = stable_sort key le (filter p l).
Proof.
  induction l as [|x l IH]; [reflexivity|].
  cbn [stable_sort fold_right filter].
  fold (stable_sort key le l).
  rewrite filter_insert_sorted by apply stable_sort_sorted.
  rewrite IH. now destruct (p x).
Qed.
End StableSortFacts.

(** The order of the BINARY collation. *)

Lemma ascii_compare_cases (a b : ascii) :
  CompareSpec (a = b) (code a < code b) (code b < code a) (Ascii.compare a b).
Proof.
  unfold Ascii.compare, code.
  destruct (N.compare_spec (N_of_ascii a) (N_of_ascii b)) as [E|E|E];
    constructor; try lia.
  rewrite <- (ascii_N_embedding a), <- (ascii_N_embedding b). now rewrite E.
Qed.

Lemma string_compare_trans (c : comparison) (s1 s2 s3 : string) :
  c <> Eq ->
  String.compare s1 s2 = c \/ String.compare s1 s2 = Eq ->
  String.compare s2 s3 = c \/ String.compare s2 s3 = Eq ->
  String.compare s1 s3 = c \/ String.compare s1 s3 = Eq.
Proof.
  intros Hc. revert s2 s3.
  induction s1 as [|a s1 IH]; intros [|b s2] [|d s3]; cbn [String.compare];
    try tauto; try (intros [H|H] [H'|H']; congruence).
  destruct (ascii_compare_cases a b) as [Eab|Hab|Hab];
    destruct (ascii_compare_cases b d) as [Ebd|Hbd|Hbd];
    destruct (ascii_compare_cases a d) as [Ead|Had|Had];
    subst; try lia; try apply IH;
    intros [H|H] [H'|H']; try congruence; auto.
Qed.

Lemma string_leb_trans (a b c : string) :
  String.leb a b = true -> String.leb b c = true -> String.leb a c = true.
Proof.
  unfold String.leb. intros H1 H2.
  destruct (string_compare_trans Lt a b c) as [H|H];
    try discriminate; try (now rewrite H).
  - destruct (String.compare a b); auto; discriminate.
  - destruct (String.compare b c); auto; discriminate.
Qed.

(** ** [LIKE] on a query without wildcards *)

Lemma all_ascii_complete (c : ascii) : In c all_ascii.
Proof.
  unfold all_ascii. rewrite <- (ascii_nat_embedding c).
  apply in_map, in_seq. pose proof (nat_ascii_bounded c). lia.
Qed.

Lemma forall_ascii (P : ascii -> bool) :
  forallb P all_ascii = true -> forall c, P c = true.
Proof.
  intros H c. rewrite forallb_forall in H. apply H, all_ascii_complete.
Qed.

(** On a plain character of the query, the lower-cased character is no
    wildcard and [LIKE] compares it with a character that went through
    [LOWER] as the specification compares the two letters. *)
Lemma plain_char_like (a b : ascii) :
  plain_char a = true ->
  wildcard (py_lower_char a) = false
  /\ (sqlite_lower_char (py_lower_char a)
      =? sqlite_lower_char (sqlite_lower_char b))%char
     = Spec.same_letter a b.
Proof.
  intros Ha.
  pose (check := fun a b : ascii =>
    implb (plain_char a)
      (negb (wildcard (py_lower_char a))
       && Bool.eqb
            (sqlite_lower_char (py_lower_char a)
             =? sqlite_lower_char (sqlite_lower_char b))%char
            (Spec.same_letter a b))).
  assert (Hall : forallb (fun a => forallb (check a) all_ascii) all_ascii = true)
    by (vm_compute; reflexivity).
  pose proof (forall_ascii _ (forall_ascii _ Hall a) b) as H.
  unfold check in H. rewrite Ha in H. cbn [implb] in H.
  apply andb_true_iff in H. destruct H as [H1 H2].
  apply negb_true_iff in H1. apply Bool.eqb_prop in H2. now split.
Qed.

Lemma like_percent (p t : string) :
  like (String "%" p) t
  = like p t
    || match t with
       | EmptyString => false
       | String _ t' => like (String "%" p) t'
       end.
Proof. destruct t; reflexivity. Qed.

Lemma like_percent_only (t : string) : like "%" t = true.
Proof.
  induction t as [|a t IH]; [reflexivity|].
  rewrite like_percent, IH. apply orb_true_r.
Qed.

Lemma like_plain_prefix (q t : string) :
  plain_query q = true ->
  like (py_lower q ++ "%") (sqlite_lower t) = Spec.starts_with_ci q t.
Proof.
  revert t. induction q as [|c q IH]; intros t Hq.
  - cbn. apply like_percent_only.
  - cbn [plain_query string_forall] in Hq. apply andb_true_iff in Hq.
    destruct Hq as [Hc Hq].
    cbn [py_lower map_string String.append].
    fold (py_lower q).
    destruct t as [|a t]; cbn [sqlite_lower map_string Spec.starts_with_ci like].
    + destruct (plain_char_like c c Hc) as [Hw _].
      unfold wildcard in Hw. apply orb_false_iff in Hw. destruct Hw as [Hw _].
      now rewrite Hw.
    + fold (sqlite_lower t).
      destruct (plain_char_like c a Hc) as [Hw He].
      unfold wildcard in Hw. apply orb_false_iff in Hw. destruct Hw as [Hw1 Hw2].
      rewrite Hw1, Hw2, He. cbn [orb]. now rewrite IH.
Qed.

Lemma like_plain_query (q t : string) :
  plain_query q = true ->
  like (like_query (py_lower q)) (sqlite_lower t) = Spec.contains_ci q t.
Proof.
  intros Hq.
  change (like_query (py_lower q)) with (String "%" (py_lower q ++ "%")).
  induction t as [|a t IH].
  - rewrite like_percent. cbn [Spec.contains_ci].
    now rewrite <- (like_plain_prefix q "" Hq).
  - rewrite like_percent. cbn [Spec.contains_ci].
    rewrite <- (like_plain_prefix q (String a t) Hq).
    cbn [sqlite_lower map_string]. fold (sqlite_lower t).
    now rewrite IH.
Qed.

Lemma contains_ci_empty (s : string) : Spec.contains_ci "" s = true.
Proof. now destruct s. Qed.

(** ** Texts without the character of code 0 *)

Lemma c_str_nul_free (s : string) : nul_free s = true -> c_str s = s.
Proof.
  induction s as [|c s IH]; cbn [nul_free string_forall c_str]; [reflexivity|].
  intros H. apply andb_true_iff in H. destruct H as [Hc Hs].
  apply negb_true_iff in Hc. rewrite Hc. f_equal. now apply IH.
Qed.

Lemma nul_free_app (s t : string) :
  nul_free (s ++ t) = nul_free s && nul_free t.
Proof.
  induction s as [|c s IH]; cbn [String.append nul_free string_forall];
    [reflexivity|].
  fold (nul_free (s ++ t)). fold (nul_free s). now rewrite IH, andb_assoc.
Qed.

Lemma nul_free_sqlite_lower (s : string) :
  nul_free (sqlite_lower s) = nul_free s.
Proof.
  induction s as [|c s IH]; cbn [sqlite_lower map_string nul_free string_forall];
    [reflexivity|].
  fold (sqlite_lower s). fold (nul_free (sqlite_lower s)). fold (nul_free s).
  rewrite IH. f_equal. f_equal.
  pose (check := fun c : ascii =>
    Bool.eqb (sqlite_lower_char c =? "000")%char (c =? "000")%char).
  assert (Hall : forallb check all_ascii = true) by (vm_compute; reflexivity).
  apply Bool.eqb_prop. exact (forall_ascii _ Hall c).
Qed.

Lemma nul_free_py_lower (q : string) :
  string_forall (fun c => 0 <? code c) q = true -> nul_free (py_lower q) = true.
Proof.
  induction q as [|c q IH]; cbn [py_lower map_string nul_free string_forall];
    [reflexivity|].
  intros H. apply andb_true_iff in H. destruct H as [Hc Hq].
  fold (py_lower q). fold (nul_free (py_lower q)). rewrite (IH Hq), andb_true_r.
  pose (check := fun c : ascii =>
    implb (0 <? code c) (negb (py_lower_char c =? "000")%char)).
  assert (Hall : forallb check all_ascii = true) by (vm_compute; reflexivity).
  pose proof (forall_ascii _ Hall c) as H. unfold check in H.
  now rewrite Hc in H.
Qed.

Lemma string_forall_impl (p p' : ascii -> bool) (s : string) :
  (forall c, p c = true -> p' c = true) ->
  string_forall p s = true -> string_forall p' s = true.
Proof.
  intros Hp. induction s as [|c s IH]; cbn [string_forall]; [reflexivity|].
  intros H. apply andb_true_iff in H. destruct H as [Hc Hs].
  now rewrite (Hp c Hc), (IH Hs).
Qed.

(** The pattern of a query without the character of code 0 is read whole. *)
Lemma c_str_like_query (q : string) :
  string_forall (fun c => 0 <? code c) q = true ->
  c_str (like_query (py_lower q)) = like_query (py_lower q).
Proof.
  intros Hq. apply c_str_nul_free. unfold like_query.
  change ("%" ++ py_lower q ++ "%")
    with (String "%" (py_lower q ++ "%")).
  cbn [nul_free string_forall]. fold (nul_free (py_lower q ++ "%")).
  rewrite nul_free_app, (nul_free_py_lower q Hq). reflexivity.
Qed.

Lemma c_str_sqlite_lower (t : string) :
  nul_free t = true -> c_str (sqlite_lower t) = sqlite_lower t.
Proof.
  intros Ht. apply c_str_nul_free. now rewrite nul_free_sqlite_lower.
Qed.

Lemma utf8_bytes_app (s t : string) :
  utf8_bytes (s ++ t) = utf8_bytes s + utf8_bytes t.
Proof.
  induction s as [|c s IH]; cbn [String.append utf8_bytes]; [reflexivity|].
  rewrite IH. lia.
Qed.

(** The pattern of a query of ASCII characters has two bytes more than the
    query has characters. *)
Lemma utf8_bytes_like_query (q : string) :
  string_forall (fun c => code c <? 128) q = true ->
  utf8_bytes (like_query (py_lower q)) = Z.of_nat (String.length q) + 2.
Proof.
  intros Hq. unfold like_query.
  change ("%" ++ py_lower q ++ "%") with (String "%" (py_lower q ++ "%")).
  cbn [utf8_bytes]. rewrite utf8_bytes_app.
  change (utf8_bytes "%") with 1. change (code "%" <? 128) with true. cbn iota.
  enough (utf8_bytes (py_lower q) = Z.of_nat (String.length q)) by lia.
  induction q as [|c q IH]; [reflexivity|].
  cbn [string_forall] in Hq. apply andb_true_iff in Hq. destruct Hq as [Hc Hq].
  cbn [py_lower map_string utf8_bytes String.length]. fold (py_lower q).
  rewrite (IH Hq).
  pose (check := fun c : ascii =>
    implb (code c <? 128) (code (py_lower_char c) <? 128)).
  assert (Hall : forallb check all_ascii = true) by (vm_compute; reflexivity).
  pose proof (forall_ascii _ Hall c) as H. unfold check in H.
  rewrite Hc in H. cbn [implb] in H. rewrite H. lia.
Qed.

Lemma search_subscriptions_short (db : database) (q : string) :
  string_forall (fun c => code c <? 128) q = true ->
  Z.of_nat (String.length q) <= 49998 ->
  search_subscriptions db q
  = mapM row_to_subscription
      (order_by_name (filter (search_where (py_lower q)) (rows db))).
Proof.
  intros Hq Hlen. unfold search_subscriptions.
  rewrite (utf8_bytes_like_query q Hq). unfold MAX_LIKE_PATTERN_LENGTH.
  destruct (Z.ltb_spec 50000 (Z.of_nat (String.length q) + 2)); [lia | reflexivity].
Qed.

Lemma plain_query_ascii (q : string) :
  plain_query q = true -> string_forall (fun c => code c <? 128) q = true.
Proof.
  apply string_forall_impl. intros c Hc. unfold plain_char in Hc.
  apply andb_true_iff in Hc. destruct Hc as [Hc _].
  apply andb_true_iff in Hc. now destruct Hc.
Qed.


Lemma plain_query_positive (q : string) :
  plain_query q = true -> string_forall (fun c => 0 <? code c) q = true.
Proof.
  apply string_forall_impl. intros c Hc. unfold plain_char in Hc.
  apply andb_true_iff in Hc. destruct Hc as [Hc _].
  apply andb_true_iff in Hc. now destruct Hc.
Qed.


(** ** Queries build their records with [Subscription_new] *)

Lemma mapM_filter_on {A B : Type} (f : A -> result B) (p : A -> bool)
    (p' : B -> bool) (P : B -> Prop) (l : list A) (l' : list B) :
  (forall a b, f a = Return b -> P b -> p' b = p a) ->
  mapM f l = Return l' ->
  Forall P l' ->
  mapM f (filter p l) = Return (filter p' l').
Proof.
  intros Hp. revert l'. induction l as [|a l IH]; intros l'; cbn [mapM filter].
  - now intros [= <-].
  - destruct (f a) as [b|e] eqn:Ef; cbn [bind]; [|discriminate].
    destruct (mapM f l) as [bs|e] eqn:Em; cbn [bind]; [|discriminate].
    intros [= <-] HP. apply Forall_cons_iff in HP. destruct HP as [Hb Hbs].
    cbn [filter]. rewrite (Hp a b Ef Hb).
    destruct (p a); cbn [mapM]; rewrite ?Ef; cbn [bind];
      now rewrite (IH bs eq_refl Hbs).
Qed.

Lemma mapM_filter {A B : Type} (f : A -> result B) (p : A -> bool) (p' : B -> bool)
    (l : list A) (l' : list B) :
  (forall a b, f a = Return b -> p' b = p a) ->
  mapM f l = Return l' ->
  mapM f (filter p l) = Return (filter p' l').
Proof.
  intros Hp Hl. apply (mapM_filter_on f p p' (fun _ => True)); auto.
  apply Forall_forall. auto.
Qed.

Lemma row_to_subscription_fields (r : row) (s : Subscription) :
  row_to_subscription r = Return s ->
  s = mkSubscription (Some (row_id r)) (row_name r) (row_category r) (row_cost r)
        (row_renewal_date r) (row_payment_method r).
Proof.
  unfold row_to_subscription, Subscription_new.
  destruct (negb (Qle_bool 0 (row_cost r))); [discriminate|].
  destruct (negb (validate_date (row_renewal_date r))); [discriminate|].
  now intros [= <-].
Qed.

(** ** [search_subscriptions] *)

(** C3, as the code has it.  Take a store from which
    [get_all_subscriptions] returns a list [all] of records whose names and
    categories are without the character of code 0, and a query of at most
    49998 ASCII characters other than that character and the wildcards [%]
    and [_].  The search returns exactly the records of [all] whose name or
    category contains the query as a substring up to the case of the
    letters A-Z, in the order of [all]; for the empty query these are all
    the records. *)
Theorem search_subscriptions_plain (db : database) (query : string)
    (all : list Subscription) :
  plain_query query = true ->
  len query <= 49998 ->
  get_all_subscriptions db = Return all ->
  Forall (fun s => nul_free_record s = true) all ->
  search_subscriptions db query = Return (filter (Spec.matches query) all)
  /\ (query = "" -> search_subscriptions db query = Return all).
Proof.
  intros Hq Hlen Hall Hnul.
  assert (Hs : search_subscriptions db query
               = Return (filter (Spec.matches query) all)).
  { rewrite (search_subscriptions_short db query (plain_query_ascii query Hq) Hlen).
    unfold order_by_name.
    rewrite <- (filter_stable_sort row_name String.leb String.leb_total
                  string_leb_trans).
    apply (mapM_filter_on row_to_subscription (search_where (py_lower query))
             (Spec.matches query) (fun s => nul_free_record s = true));
      [|exact Hall|exact Hnul].
    intros r s Hr Hs. apply row_to_subscription_fields in Hr. subst s.
    unfold nul_free_record in Hs. cbn [name category] in Hs.
    apply andb_true_iff in Hs. destruct Hs as [Hn Hc].
    unfold Spec.matches, search_where. cbn [name category].
    rewrite (c_str_like_query query (plain_query_positive query Hq)).
    rewrite (c_str_sqlite_lower _ Hn), (c_str_sqlite_lower _ Hc).
    now rewrite !like_plain_query. }
  split; [exact Hs|].
  intros ->. rewrite Hs. f_equal.
  clear. induction all as [|s l IH]; [reflexivity|].
  cbn [filter]. unfold Spec.matches at 1.
  now rewrite contains_ci_empty, IH.
Qed.

Lemma search_subscriptions_plain_witness :
  plain_query "cloud" = true
  /\ len "cloud" <= 49998
  /\ get_all_subscriptions sample_db = Return sample_listing
  /\ forallb nul_free_record sample_listing = true
  /\ search_subscriptions sample_db "cloud"
     = Return (filter (Spec.matches "cloud") sample_listing).
Proof.
  split; [reflexivity|]. split; [discriminate|].
  split; [reflexivity|]. split; [reflexivity|].
  apply (search_subscriptions_plain sample_db "cloud" sample_listing);
    [reflexivity | discriminate | reflexivity |].
  apply Forall_forall. apply forallb_forall. reflexivity.
Defined.

(** C3, as the specification states it, fails on the empty query: the
    search lists every record. *)
Lemma search_subscriptions_empty_query :
  search_subscriptions sample_db "" = Return sample_listing
  /\ search_subscriptions sample_db "" <> Return [].
Proof. split; [reflexivity | discriminate]. Qed.

(** A wildcard in the query is not escaped: the query n_t finds Netflix,
    which does not contain it. *)
Example search_subscriptions_wildcard :
  Spec.matches "n_t"
    (mkSubscription (Some 1) "Netflix" "Streaming" 15.99 "2024-02-15" "Credit Card")
  = false
  /\ search_subscriptions sample_db "n_t"
     = Return [mkSubscription (Some 1) "Netflix" "Streaming" 15.99 "2024-02-15"
                 "Credit Card"].
Proof. split; reflexivity. Qed.

(** The character of code 0 ends what [LIKE] reads: as a query it finds
    every record, and behind it a part of a stored name is not found. *)
Example search_subscriptions_nul :
  search_subscriptions sample_db (String "000" "") = Return sample_listing
  /\ search_subscriptions
       (snd (add_subscription empty_db
               (mkSubscription None (String "a" (String "b" (String "000" "cd")))
                  "Music" 1 "2024-01-10" "PayPal")))
       "cd"
     = Return [].
Proof. split; reflexivity. Qed.

(** ** [Subscription] and [add_subscription] *)

Lemma Subscription_new_cases (i : option Z) (n c : string) (q : Q) (d p : string) :
  ((q < 0)%Q ->
   Subscription_new i n c q d p = Raise (ValueError "Cost cannot be negative"))
  /\ ((0 <= q)%Q -> validate_date d = false ->
      Subscription_new i n c q d p = Raise (ValueError "Invalid renewal date format"))
  /\ ((0 <= q)%Q -> validate_date d = true ->
      Subscription_new i n c q d p = Return (mkSubscription i n c q d p)).
Proof.
  unfold Subscription_new.
  destruct (Qle_bool 0 q) eqn:Eq; cbn [negb].
  - apply Qle_bool_iff in Eq. repeat split.
    + intros Hlt. exfalso. now apply (Qlt_not_le _ _ Hlt).
    + intros _ ->. reflexivity.
    + intros _ ->. reflexivity.
  - assert (Hn : ~ (0 <= q)%Q) by (rewrite <- Qle_bool_iff; congruence).
    repeat split; try reflexivity; intros H; now exfalso.
Qed.

Lemma row_id_le_max (l : list row) :
  Forall (fun r => row_id r <= fold_right Z.max 0 (map row_id l)) l.
Proof.
  induction l as [|r l IH]; constructor; cbn [map fold_right].
  - lia.
  - eapply Forall_impl; [|exact IH]. cbn beta. intros; lia.
Qed.

(** C4.  A record with an empty name, category and payment method fails
    the three validators of [utils.py]; yet it is built without error, and
    [add_subscription] stores it on the empty store and returns its id 1. *)
Theorem add_subscription_empty_name :
  validate_subscription_name "" = false
  /\ validate_category "" = false
  /\ validate_payment_method "" = false
  /\ Subscription_new None "" "" 9.99 "2024-01-10" ""
     = Return (mkSubscription None "" "" 9.99 "2024-01-10" "")
  /\ add_subscription empty_db (mkSubscription None "" "" 9.99 "2024-01-10" "")
     = (1, mkdb [mkrow 1 "" "" 9.99 "2024-01-10" ""] 1).
Proof. repeat split; reflexivity. Qed.

(** ** [update_subscription] *)

Lemma filter_id_none (i : Z) (l : list row) :
  ~ In i (map row_id l) -> filter (fun r => row_id r =? i) l = [].
Proof.
  induction l as [|r l IH]; cbn [map In filter]; [reflexivity|].
  intros H. destruct (Z.eqb_spec (row_id r) i) as [E|E]; [tauto|].
  apply IH. tauto.
Qed.

Lemma filter_id_some (i : Z) (l : list row) :
  In i (map row_id l) -> filter (fun r => row_id r =? i) l <> [].
Proof.
  induction l as [|r l IH]; cbn [map In filter]; [tauto|].
  intros [H|H].
  - rewrite H, Z.eqb_refl. discriminate.
  - destruct (row_id r =? i); [discriminate | now apply IH].
Qed.

Lemma map_update_row_absent (s : Subscription) (i : Z) (l : list row) :
  ~ In i (map row_id l) -> map (update_row s i) l = l.
Proof.
  induction l as [|r l IH]; cbn [map In]; [reflexivity|].
  intros H. unfold update_row at 1.
  destruct (Z.eqb_spec (row_id r) i) as [E|E]; [tauto|].
  rewrite IH; tauto.
Qed.

Lemma find_update_row (s : Subscription) (i : Z) (l : list row) :
  In i (map row_id l) ->
  find (fun r => row_id r =? i) (map (update_row s i) l)
  = Some (row_of_subscription i s).
Proof.
  induction l as [|r l IH]; cbn [map In]; [tauto|].
  intros H. unfold update_row at 1.
  destruct (row_id r =? i) eqn:E; cbn [find row_id].
  - now rewrite Z.eqb_refl.
  - rewrite E. apply IH. apply Z.eqb_neq in E. tauto.
Qed.

(** C5, as the code has it.  A record without an id, or with the id 0,
    makes [update_subscription] raise [ValueError] before it reaches the
    table.  For any other id of the 64-bit range that no row carries, it
    returns [false] and the database is unchanged.  For the id of a row and
    a record that passes every check the specification asks of [add], it
    returns [true] and the row holds the fields of the record, while every
    other row and the counter stay as they were. *)
Theorem update_subscription_spec (db : database) (s : Subscription) :
  (id_missing (id s) = true ->
   update_subscription db s
   = Raise (ValueError "Subscription ID is required for update"))
  /\ (forall i, id s = Some i -> i <> 0 -> int64 i = true ->
        ~ In i (map row_id (rows db)) ->
        update_subscription db s = Return (false, db))
  /\ (forall i, id s = Some i -> i <> 0 -> int64 i = true ->
        In i (map row_id (rows db)) ->
        valid_record s = true ->
        exists db',
          update_subscription db s = Return (true, db')
          /\ seq db' = seq db
          /\ rows db'
             = map (fun r => if row_id r =? i then row_of_subscription i s else r)
                 (rows db)
          /\ find (fun r => row_id r =? i) (rows db')
             = Some (row_of_subscription i s)).
Proof.
  unfold update_subscription. repeat split.
  - intros ->. reflexivity.
  - intros i Hi Hne _ Habs. rewrite Hi. cbn [id_missing].
    apply Z.eqb_neq in Hne. rewrite Hne.
    rewrite filter_id_none, map_update_row_absent by assumption.
    now destruct db.
  - intros i Hi Hne _ Hin _. rewrite Hi. cbn [id_missing].
    apply Z.eqb_neq in Hne. rewrite Hne.
    exists (mkdb (map (update_row s i) (rows db)) (seq db)).
    split; [|split; [reflexivity|split; [reflexivity|]]].
    + f_equal. f_equal.
      pose proof (filter_id_some i (rows db) Hin) as Hf.
      now destruct (filter (fun r => row_id r =? i) (rows db)).
    + cbn [rows]. now apply find_update_row.
Qed.

Lemma update_subscription_spec_witness :
  exists db',
    update_subscription sample_db
      (mkSubscription (Some 2) "Spotify Family" "Music" 16.99 "2024-01-20" "PayPal")
    = Return (true, db')
    /\ seq db' = seq sample_db
    /\ rows db'
       = map (fun r =>
                if row_id r =? 2
                then row_of_subscription 2
                       (mkSubscription (Some 2) "Spotify Family" "Music" 16.99
                          "2024-01-20" "PayPal")
                else r)
           (rows sample_db)
    /\ find (fun r => row_id r =? 2) (rows db')
       = Some (mkrow 2 "Spotify Family" "Music" 16.99 "2024-01-20" "PayPal").
Proof.
  apply (proj2 (proj2 (update_subscription_spec sample_db
           (mkSubscription (Some 2) "Spotify Family" "Music" 16.99 "2024-01-20"
              "PayPal"))) 2).
  - reflexivity.
  - discriminate.
  - reflexivity.
  - vm_compute. auto.
  - reflexivity.
Defined.

(** C5, as the specification states it, fails on a record without an id:
    no entry has that id, and the answer is a [ValueError], not the
    [false] that reports an absent id. *)
Lemma update_subscription_without_id :
  update_subscription sample_db
    (mkSubscription None "Netflix" "Streaming" 15.99 "2024-02-15" "Credit Card")
  = Raise (ValueError "Subscription ID is required for update")
  /\ update_subscription sample_db
       (mkSubscription None "Netflix" "Streaming" 15.99 "2024-02-15" "Credit Card")
     <> Return (false, sample_db)
  /\ update_subscription sample_db
       (mkSubscription (Some 99) "Netflix" "Streaming" 15.99 "2024-02-15"
          "Credit Card")
     = Return (false, sample_db).
Proof. repeat split; try reflexivity. discriminate. Qed.

(** ** Rows from which records can be built *)

Lemma row_to_subscription_valid (r : row) :
  row_valid r = true -> row_to_subscription r = Return (subscription_of_row r).
Proof.
  unfold row_valid, row_to_subscription, Subscription_new. intros H.
  apply andb_true_iff in H. destruct H as [-> ->]. reflexivity.
Qed.

Lemma row_to_subscription_invariant (r : row) (s : Subscription) :
  row_to_subscription r = Return s -> Spec.invariant s.
Proof.
  unfold row_to_subscription, Subscription_new, Spec.invariant.
  destruct (Qle_bool 0 (row_cost r)) eqn:Eq; cbn [negb]; [|discriminate].
  destruct (validate_date (row_renewal_date r)) eqn:Ev; cbn [negb]; [|discriminate].
  intros [= <-]. cbn [cost renewal_date]. split; [now apply Qle_bool_iff | exact Ev].
Qed.

Lemma mapM_valid_rows (l : list row) :
  forallb row_valid l = true ->
  mapM row_to_subscription l = Return (map subscription_of_row l).
Proof.
  induction l as [|r l IH]; cbn [forallb mapM map]; [reflexivity|].
  intros H. apply andb_true_iff in H. destruct H as [Hr Hl].
  rewrite (row_to_subscription_valid r Hr). cbn [bind].
  now rewrite (IH Hl).
Qed.

Lemma mapM_Forall {A B : Type} (f : A -> result B) (P : B -> Prop)
    (l : list A) (l' : list B) :
  (forall a b, f a = Return b -> P b) ->
  mapM f l = Return l' -> Forall P l'.
Proof.
  intros Hf. revert l'. induction l as [|a l IH]; intros l'; cbn [mapM].
  - intros [= <-]. constructor.
  - destruct (f a) as [b|e] eqn:Ef; cbn [bind]; [|discriminate].
    destruct (mapM f l) as [bs|e] eqn:Em; cbn [bind]; [|discriminate].
    intros [= <-]. constructor; eauto.
Qed.

Lemma forallb_perm {A : Type} (p : A -> bool) (l l' : list A) :
  Permutation l l' -> forallb p l' = true -> forallb p l = true.
Proof.
  intros Hp H. rewrite forallb_forall in *.
  intros x Hx. apply H. eapply Permutation_in; eauto.
Qed.

Lemma order_by_name_perm (l : list row) : Permutation (order_by_name l) l.
Proof. apply stable_sort_perm. Qed.

Lemma get_all_subscriptions_valid (db : database) :
  store_valid db = true ->
  get_all_subscriptions db
  = Return (map subscription_of_row (order_by_name (rows db))).
Proof.
  intros H. apply mapM_valid_rows.
  eapply forallb_perm; [apply order_by_name_perm | exact H].
Qed.

(** ** Totals *)

(** C9.  The edit of [main.py] assigns a new cost to a record without
    looking at its sign, and [update_subscription] stores the cost -5 for
    Netflix.  On the store it leaves, neither total is computed: both
    functions raise [ValueError]. *)
Theorem total_cost_raises :
  update_subscription sample_db negative_cost_record
  = Return (true, negative_cost_db)
  /\ get_total_monthly_cost negative_cost_db
     = Raise (ValueError "Cost cannot be negative")
  /\ get_total_annual_cost negative_cost_db
     = Raise (ValueError "Cost cannot be negative").
Proof. repeat split; reflexivity. Qed.

(** ** The invariant of the records the queries return *)

Lemma upcoming_loop_subset (today : date) (days : Z) (subs : list Subscription)
    (l : list (Subscription * Z)) :
  upcoming_loop today days subs = Return l ->
  forall p, In p l -> In (fst p) subs.
Proof.
  revert l. induction subs as [|s subs IH]; intros l; cbn [upcoming_loop].
  - intros [= <-] p [].
  - destruct (calculate_days_until_renewal today (renewal_date s)) as [d|e];
      cbn [bind]; [|discriminate].
    destruct (upcoming_loop today days subs) as [tl|e]; cbn [bind]; [|discriminate].
    intros [= <-] p Hp.
    destruct ((0 <=? d) && (d <=? days)).
    + destruct Hp as [<-|Hp]; [now left | right; now apply (IH tl)].
    + right. now apply (IH tl).
Qed.

(** On a cost that is a number, [Subscription_new] returns only records
    with a cost that is not negative and a valid renewal date, and raises
    on all other fields.  Every query builds the records it returns with
    it, so these records satisfy the invariant; a store whose rows satisfy
    it is listed in full. *)
Theorem subscription_invariant :
  (forall i n c q d p s,
      Subscription_new i n c q d p = Return s -> Spec.invariant s)
  /\ (forall i n c q d p,
        ~ ((0 <= q)%Q /\ validate_date d = true) ->
        exists e, Subscription_new i n c q d p = Raise e)
  /\ (forall db l, get_all_subscriptions db = Return l -> Forall Spec.invariant l)
  /\ (forall db i s,
        get_subscription_by_id db i = Return (Some s) -> Spec.invariant s)
  /\ (forall db q l,
        search_subscriptions db q = Return l -> Forall Spec.invariant l)
  /\ (forall db c l,
        get_subscriptions_by_category db c = Return l -> Forall Spec.invariant l)
  /\ (forall today db days l,
        get_upcoming_renewals today db days = Return l ->
        Forall (fun p => Spec.invariant (fst p)) l)
  /\ (forall db,
        store_valid db = true ->
        exists l, get_all_subscriptions db = Return l
                  /\ List.length l = List.length (rows db)).
Proof.
  repeat apply conj.
  - intros i n c q d p s. unfold Subscription_new, Spec.invariant.
    destruct (Qle_bool 0 q) eqn:Eq; cbn [negb]; [|discriminate].
    destruct (validate_date d) eqn:Ev; cbn [negb]; [|discriminate].
    intros [= <-]. cbn [cost renewal_date]. split; [now apply Qle_bool_iff | exact Ev].
  - intros i n c q d p Hn. unfold Subscription_new.
    destruct (Qle_bool 0 q) eqn:Eq; cbn [negb]; [|eauto].
    destruct (validate_date d) eqn:Ev; cbn [negb]; [|eauto].
    exfalso. apply Hn. split; [now apply Qle_bool_iff | reflexivity].
  - intros db l. apply mapM_Forall, row_to_subscription_invariant.
  - intros db i s. unfold get_subscription_by_id.
    destruct (find (fun r => row_id r =? i) (rows db)) as [r|]; [|discriminate].
    destruct (row_to_subscription r) as [s'|e] eqn:Er; cbn [bind]; [|discriminate].
    intros [= <-]. now apply (row_to_subscription_invariant r).
  - intros db q l. unfold search_subscriptions.
    destruct (MAX_LIKE_PATTERN_LENGTH <? utf8_bytes (like_query (py_lower q)));
      [intros [= <-]; constructor|].
    apply mapM_Forall, row_to_subscription_invariant.
  - intros db c l. apply mapM_Forall, row_to_subscription_invariant.
  - intros today db days l. unfold get_upcoming_renewals.
    destruct (get_all_subscriptions db) as [subs|e] eqn:Ea; cbn [bind]; [|discriminate].
    destruct (upcoming_loop today days subs) as [up|e] eqn:Eu; cbn [bind];
      [|discriminate].
    intros [= <-].
    assert (Hsubs : Forall Spec.invariant subs)
      by (eapply mapM_Forall; [apply row_to_subscription_invariant | exact Ea]).
    apply Forall_forall. intros p Hp.
    rewrite Forall_forall in Hsubs. apply Hsubs.
    apply (upcoming_loop_subset today days subs up Eu).
    eapply Permutation_in; [apply (stable_sort_perm snd Z.leb) | exact Hp].
  - intros db Hv. rewrite (get_all_subscriptions_valid db Hv).
    eexists. split; [reflexivity|].
    rewrite length_map. apply Permutation_length, order_by_name_perm.
Qed.

Lemma subscription_invariant_witness :
  Forall Spec.invariant sample_listing.
Proof.
  apply (proj1 (proj2 (proj2 subscription_invariant)) sample_db sample_listing).
  reflexivity.
Defined.

(** C10.  The check of [__post_init__] lets a cost that is a NaN through:
    with a valid renewal date no error is raised, and the record is built
    with a cost of which [0 <= cost] is false. *)
Theorem Subscription_nan_cost :
  Subscription_post_init nan "2024-01-10" = Return tt
  /\ (0 <=? nan)%float = false.
Proof. split; reflexivity. Qed.

(** ** [get_upcoming_renewals] *)

Lemma mapM_sorted (l : list row) (subs : list Subscription) :
  StronglySorted (fun a b => String.leb (row_name a) (row_name b) = true) l ->
  mapM row_to_subscription l = Return subs ->
  StronglySorted by_name subs.
Proof.
  intros Hs. revert subs.
  induction Hs as [|r l Hs IH Hr]; intros subs; cbn [mapM].
  - intros [= <-]. constructor.
  - destruct (row_to_subscription r) as [s|e] eqn:Er; cbn [bind]; [|discriminate].
    destruct (mapM row_to_subscription l) as [ss|e] eqn:Em; cbn [bind];
      [|discriminate].
    intros [= <-]. constructor; [now apply IH|].
    apply row_to_subscription_fields in Er. subst s.
    clear IH Hs. revert ss Em.
    induction Hr as [|r' l Hr' _ IHr]; intros ss; cbn [mapM].
    + intros [= <-]. constructor.
    + destruct (row_to_subscription r') as [s'|e] eqn:Er'; cbn [bind];
        [|discriminate].
      destruct (mapM row_to_subscription l) as [ss'|e]; cbn [bind]; [|discriminate].
      intros [= <-]. constructor; [|now apply IHr].
      apply row_to_subscription_fields in Er'. subst s'. exact Hr'.
Qed.

Lemma get_all_subscriptions_sorted (db : database) (subs : list Subscription) :
  get_all_subscriptions db = Return subs -> StronglySorted by_name subs.
Proof.
  apply mapM_sorted.
  apply (stable_sort_sorted row_name String.leb String.leb_total string_leb_trans).
Qed.

(** The loop returns when every computation of days returns, and then it
    keeps, in the order of the records, those inside the window. *)
Lemma upcoming_loop_spec (today : date) (days : Z) (subs : list Subscription) :
  (forall s, In s subs ->
     exists d, calculate_days_until_renewal today (renewal_date s) = Return d) ->
  exists up,
    upcoming_loop today days subs = Return up
    /\ (forall s d, In (s, d) up <->
          In s subs
          /\ calculate_days_until_renewal today (renewal_date s) = Return d
          /\ 0 <= d <= days)
    /\ (StronglySorted by_name subs ->
        StronglySorted (fun p1 p2 => by_name (fst p1) (fst p2)) up).
Proof.
  induction subs as [|s subs IH]; intros Hall; cbn [upcoming_loop].
  - exists []. split; [reflexivity|]. split.
    + intros s d. cbn [In]. tauto.
    + constructor.
  - destruct (Hall s (or_introl eq_refl)) as [d Hd]. rewrite Hd. cbn [bind].
    destruct IH as (up & Hup & Hin & Hsorted);
      [intros s' Hs'; apply Hall; now right|].
    rewrite Hup. cbn [bind]. eexists. split; [reflexivity|].
    assert (Hfst : forall p, In p up -> In (fst p) subs).
    { intros [s' d'] Hp. apply Hin in Hp. cbn [fst]. tauto. }
    destruct ((0 <=? d) && (d <=? days)) eqn:Ew.
    + split.
      * intros s' d'. cbn [In]. rewrite Hin. split.
        -- intros [[= <- <-]|H]; [|tauto].
           bool_props. repeat split; auto; lia.
        -- intros [[<-|H1] [H2 H3]]; [|tauto].
           left. rewrite Hd in H2. now injection H2 as ->.
      * intros Hs. inversion Hs as [|? ? Hs' Hhd]; subst.
        constructor; [now apply Hsorted|].
        apply Forall_forall. intros p Hp. cbn [fst].
        rewrite Forall_forall in Hhd. now apply Hhd, Hfst.
    + split.
      * intros s' d'. rewrite Hin. cbn [In]. split; [tauto|].
        intros [[<-|H1] [H2 H3]]; [|tauto].
        rewrite Hd in H2. injection H2 as ->.
        apply andb_false_iff in Ew. destruct Ew as [E|E];
          [apply Z.leb_gt in E | apply Z.leb_gt in E]; lia.
      * intros Hs. inversion Hs; subst. now apply Hsorted.
Qed.

Lemma insert_sorted_upcoming (x : Subscription * Z) (l : list (Subscription * Z)) :
  Forall (fun p => by_name (fst x) (fst p)) l ->
  StronglySorted Spec.upcoming_order l ->
  StronglySorted Spec.upcoming_order (insert_sorted snd Z.leb x l).
Proof.
  intros Hx Hs. induction Hs as [|y l Hs IH Hy]; cbn [insert_sorted].
  - repeat constructor.
  - inversion Hx as [|? ? Hxy Hxl]; subst.
    destruct (Z.leb_spec (snd x) (snd y)) as [E|E].
    + constructor; [now constructor|].
      constructor.
      * unfold Spec.upcoming_order, by_name in *.
        destruct (Z.eq_dec (snd x) (snd y)); [right; now split | left; lia].
      * rewrite Forall_forall in *. intros z Hz.
        specialize (Hy z Hz). specialize (Hxl z Hz).
        unfold Spec.upcoming_order, by_name in *.
        destruct (Z.eq_dec (snd x) (snd z)); [right; now split | left; lia].
    + constructor; [now apply IH|].
      rewrite (insert_sorted_perm snd Z.leb). constructor; [|exact Hy].
      unfold Spec.upcoming_order. lia.
Qed.

(** Sorting by days a list that is in the order of the names leaves the
    renewals of one day in the order of the names. *)
Lemma stable_sort_upcoming (l : list (Subscription * Z)) :
  StronglySorted (fun p1 p2 => by_name (fst p1) (fst p2)) l ->
  StronglySorted Spec.upcoming_order (stable_sort snd Z.leb l).
Proof.
  induction 1 as [|x l Hs IH Hx]; cbn [stable_sort fold_right]; [constructor|].
  apply insert_sorted_upcoming; [|exact IH].
  fold (stable_sort snd Z.leb l).
  rewrite (stable_sort_perm snd Z.leb). exact Hx.
Qed.

Lemma upcoming_loop_due_pairs (today : date) (days : Z) (subs : list Subscription)
    (up : list (Subscription * Z)) :
  upcoming_loop today days subs = Return up -> up = due_pairs today days subs.
Proof.
  revert up. induction subs as [|s subs IH]; intros up;
    cbn [upcoming_loop due_pairs].
  - now intros [= <-].
  - destruct (calculate_days_until_renewal today (renewal_date s)) as [d|e];
      cbn [bind]; [|discriminate].
    destruct (upcoming_loop today days subs) as [tl|e]; cbn [bind]; [|discriminate].
    intros [= <-]. rewrite <- (IH tl eq_refl).
    now destruct ((0 <=? d) && (d <=? days)).
Qed.

(** X26.  When the days of every record can be
    computed, [get_upcoming_renewals] returns exactly the records inside the
    window, each with its days and as many times as the listing holds it,
    sorted by days and, within a day, by name. *)
Theorem get_upcoming_renewals_spec (today : date) (db : database) (days : Z)
    (subs : list Subscription) :
  get_all_subscriptions db = Return subs ->
  (forall s, In s subs ->
     exists d, calculate_days_until_renewal today (renewal_date s) = Return d) ->
  exists l,
    get_upcoming_renewals today db days = Return l
    /\ (forall s d, In (s, d) l <->
          In s subs
          /\ calculate_days_until_renewal today (renewal_date s) = Return d
          /\ 0 <= d <= days)
    /\ Permutation l (due_pairs today days subs)
    /\ StronglySorted Spec.upcoming_order l.
Proof.
  intros Hall Hcalc. unfold get_upcoming_renewals. rewrite Hall. cbn [bind].
  destruct (upcoming_loop_spec today days subs Hcalc) as (up & Hup & Hin & Hs).
  rewrite Hup. cbn [bind]. eexists. split; [reflexivity|]. split; [|split].
  - intros s d. rewrite <- Hin. split; apply Permutation_in.
    + apply (stable_sort_perm snd Z.leb).
    + symmetry. apply (stable_sort_perm snd Z.leb).
  - rewrite <- (upcoming_loop_due_pairs today days subs up Hup).
    apply (stable_sort_perm snd Z.leb).
  - apply stable_sort_upcoming, Hs. now apply (get_all_subscriptions_sorted db).
Qed.

(** C6.  One valid record renewed on a leap day makes the whole query
    raise in a year without one, although other renewals fall inside the
    window; without that record the query answers. *)
Theorem get_upcoming_renewals_leap_day_raises :
  store_valid leap_day_db = true
  /\ get_upcoming_renewals (mkdate 2023 1 5) leap_day_db 30 = Raise calc_error
  /\ get_upcoming_renewals (mkdate 2023 1 5) sample_db 30
     = Return
         [ (mkSubscription (Some 4) "Dropbox Plus" "Cloud Storage" 9.99
              "2024-01-10" "Credit Card", 5);
           (mkSubscription (Some 2) "Spotify Premium" "Music" 9.99 "2024-01-20"
              "PayPal", 15) ].
Proof. repeat split; reflexivity. Qed.

(** ** The examples of the specification *)

Example calculate_days_until_renewal_anniversary_example :
  exists r,
    calculate_days_until_renewal (mkdate 2024 1 5) "2019-01-10" = Return r
    /\ r = Spec.days_until_next_anniversary 1 10 (mkdate 2024 1 5)
    /\ 0 <= r <= 366
    /\ (r = 0 <-> 1 = 1 /\ 10 = 5).
Proof.
  apply (calculate_days_until_renewal_anniversary (mkdate 2024 1 5)
           (mkdate 2019 1 10) "2019-01-10"); reflexivity.
Qed.

Example calculate_days_until_renewal_today :
  calculate_days_until_renewal (mkdate 2025 7 4) "1999-07-04" = Return 0
  /\ calculate_days_until_renewal (mkdate 2025 7 5) "1999-07-04" = Return 364
  /\ calculate_days_until_renewal (mkdate 2023 12 31) "2000-01-01" = Return 1.
Proof. repeat split; reflexivity. Qed.

Example get_upcoming_renewals_example :
  get_upcoming_renewals (mkdate 2024 1 5)
    (add_all empty_db
       [mkSubscription None "Dropbox Plus" "Cloud Storage" 9.99 "2019-01-10"
          "Credit Card"])
    30
  = Return [(mkSubscription (Some 1) "Dropbox Plus" "Cloud Storage" 9.99
               "2019-01-10" "Credit Card", 5)].
Proof. reflexivity. Qed.

Example get_upcoming_renewals_spec_example :
  exists l,
    get_upcoming_renewals (mkdate 2024 1 5) sample_db 30 = Return l
    /\ (forall s d, In (s, d) l <->
          In s sample_listing
          /\ calculate_days_until_renewal (mkdate 2024 1 5) (renewal_date s)
             = Return d
          /\ 0 <= d <= 30)
    /\ Permutation l (due_pairs (mkdate 2024 1 5) 30 sample_listing)
    /\ StronglySorted Spec.upcoming_order l.
Proof.
  apply (get_upcoming_renewals_spec (mkdate 2024 1 5) sample_db 30 sample_listing).
  - reflexivity.
  - intros s Hs. cbn [sample_listing In] in Hs.
    destruct Hs as [<-|[<-|[<-|[<-|[]]]]]; eexists; reflexivity.
Defined.

(** ** Dates in the order of their ordinals *)

Lemma days_before_year_le (y y' : Z) :
  y <= y' -> days_before_year y <= days_before_year y'.
Proof.
  intros H. unfold days_before_year. cbv zeta.
  assert (Hd : forall a, a * 365 + a / 4 - a / 100 + a / 400
                         = a * 365 + a / 4 - a / 4 / 25 + a / 4 / 25 / 4).
  { intros a. rewrite !Z.div_div by lia. reflexivity. }
  rewrite !Hd. Z.div_mod_to_equations. lia.
Qed.

Lemma date_lt_toordinal (a b : date) :
  valid a -> valid b -> date_lt a b = true -> toordinal a < toordinal b.
Proof.
  intros Ha Hb Hlt.
  apply check_date_fields_iff in Ha, Hb.
  destruct Ha as (Hya & Hma & Hda). destruct Hb as (Hyb & Hmb & Hdb).
  apply date_lt_iff in Hlt. rewrite !toordinal_split.
  pose proof (day_of_year_range _ _ _ Hma Hda) as Ra.
  pose proof (day_of_year_range _ _ _ Hmb Hdb) as Rb.
  destruct Hlt as [Hy|[Hy Hmd]].
  - pose proof (days_before_year_succ (year a)) as Hs.
    pose proof (days_before_year_le (year a + 1) (year b) ltac:(lia)). lia.
  - rewrite Hy in *.
    apply (day_of_year_lt (year b) (month a) (day a) (month b) (day b)) in Hmd;
      auto; lia.
Qed.

Lemma date_order_cases (a b : date) :
  date_lt a b = true \/ a = b \/ date_lt b a = true.
Proof.
  rewrite !date_lt_iff. destruct a as [ya ma da], b as [yb mb db].
  cbn [year month day].
  destruct (Z.lt_total ya yb) as [H|[H|H]]; [tauto| |tauto].
  destruct (Z.lt_total ma mb) as [H1|[H1|H1]]; [tauto| |right; right; lia].
  destruct (Z.lt_total da db) as [H2|[H2|H2]]; [tauto| |right; right; lia].
  subst. tauto.
Qed.

Lemma date_lt_toordinal_iff (a b : date) :
  valid a -> valid b -> (date_lt a b = true <-> toordinal a < toordinal b).
Proof.
  intros Ha Hb. split; [now apply date_lt_toordinal|].
  intros H. destruct (date_order_cases a b) as [Hc|[->|Hc]]; [assumption|lia|].
  apply (date_lt_toordinal b a Hb Ha) in Hc. lia.
Qed.

Lemma date_le_lt (a b : date) : date_le a b = negb (date_lt b a).
Proof.
  unfold date_le, date_lt.
  destruct (Z.ltb_spec (year a) (year b)), (Z.ltb_spec (year b) (year a)),
    (Z.eqb_spec (year a) (year b)), (Z.eqb_spec (year b) (year a)),
    (Z.ltb_spec (month a) (month b)), (Z.ltb_spec (month b) (month a)),
    (Z.eqb_spec (month a) (month b)), (Z.eqb_spec (month b) (month a)),
    (Z.leb_spec (day a) (day b)), (Z.ltb_spec (day b) (day a));
    cbn; try reflexivity; lia.
Qed.

Lemma date_le_toordinal_iff (a b : date) :
  valid a -> valid b -> (date_le a b = true <-> toordinal a <= toordinal b).
Proof.
  intros Ha Hb. rewrite date_le_lt, negb_true_iff.
  pose proof (date_lt_toordinal_iff b a Hb Ha) as H.
  destruct (date_lt b a); split; intros; try reflexivity; try discriminate.
  - assert (toordinal b < toordinal a) by now apply H. lia.
  - destruct (Z.lt_ge_cases (toordinal b) (toordinal a)) as [Hlt|Hge]; [|lia].
    apply H in Hlt. discriminate.
Qed.

Lemma toordinal_inj (a b : date) :
  valid a -> valid b -> toordinal a = toordinal b -> a = b.
Proof.
  intros Ha Hb H. destruct (date_order_cases a b) as [Hc|[Hc|Hc]]; [|assumption|].
  - apply (date_lt_toordinal a b Ha Hb) in Hc. lia.
  - apply (date_lt_toordinal b a Hb Ha) in Hc. lia.
Qed.

(** ** Valid date strings and their dates *)

Lemma digit_value_inj (a b : ascii) : digit_value a = digit_value b -> a = b.
Proof. unfold digit_value. intros H. apply code_inj. lia. Qed.

(** A valid string is the ten characters of its date. *)
Lemma validate_date_digits (s : string) :
  validate_date s = true ->
  exists y1 y2 y3 y4 m1 m2 d1 d2,
    s = String y1 (String y2 (String y3 (String y4 (String "-"
          (String m1 (String m2 (String "-" (String d1 (String d2 "")))))))))
    /\ Forall (fun c => 0 <= digit_value c <= 9) [y1; y2; y3; y4; m1; m2; d1; d2]
    /\ strptime s
       = Some (mkdate (1000 * digit_value y1 + 100 * digit_value y2
                       + 10 * digit_value y3 + digit_value y4)
                      (10 * digit_value m1 + digit_value m2)
                      (10 * digit_value d1 + digit_value d2)).
Proof.
  intros H. apply validate_date_unfold in H. destruct H as [Hre [dt Hdt]].
  destruct (re_match_date_pattern_shape s Hre)
    as (y1 & y2 & y3 & y4 & m1 & m2 & d1 & d2 & tl & -> & HF).
  rewrite (strptime_shape _ _ _ _ _ _ _ _ tl HF) in Hdt |- *.
  destruct tl as [|c tl']; [|discriminate].
  exists y1, y2, y3, y4, m1, m2, d1, d2. split; [reflexivity|]. split.
  - eapply Forall_impl; [|exact HF]. intros c. apply digit_value_range.
  - unfold date_new in *.
    destruct (check_date_fields _ _ _); [reflexivity | discriminate].
Qed.

Lemma strptime_inj (s1 s2 : string) :
  validate_date s1 = true -> validate_date s2 = true ->
  strptime s1 = strptime s2 -> s1 = s2.
Proof.
  intros H1 H2 He.
  destruct (validate_date_digits s1 H1)
    as (a1 & a2 & a3 & a4 & a5 & a6 & a7 & a8 & -> & Fa & Pa).
  destruct (validate_date_digits s2 H2)
    as (b1 & b2 & b3 & b4 & b5 & b6 & b7 & b8 & -> & Fb & Pb).
  rewrite Pa, Pb in He.
  assert (Ey := f_equal (fun o => match o with Some d => year d | None => 0 end) He).
  assert (Em := f_equal (fun o => match o with Some d => month d | None => 0 end) He).
  assert (Ed := f_equal (fun o => match o with Some d => day d | None => 0 end) He).
  cbn [year month day] in Ey, Em, Ed.
  rewrite !Forall_cons_iff in Fa, Fb.
  destruct Fa as (? & ? & ? & ? & ? & ? & ? & ? & _).
  destruct Fb as (? & ? & ? & ? & ? & ? & ? & ? & _).
  assert (digit_value a1 = digit_value b1) by lia.
  assert (digit_value a2 = digit_value b2) by lia.
  assert (digit_value a3 = digit_value b3) by lia.
  assert (digit_value a4 = digit_value b4) by lia.
  assert (digit_value a5 = digit_value b5) by lia.
  assert (digit_value a6 = digit_value b6) by lia.
  assert (digit_value a7 = digit_value b7) by lia.
  assert (digit_value a8 = digit_value b8) by lia.
  repeat match goal with
         | H : digit_value _ = digit_value _ |- _ => apply digit_value_inj in H
         end.
  now subst.
Qed.

(** ** What [calculate_days_until_renewal] returns *)

Lemma calculate_days_until_renewal_returns_inv (today : date) (s : string) (r : Z) :
  calculate_days_until_renewal today s = Return r ->
  validate_date s = true
  /\ exists renewal,
       strptime s = Some renewal /\ anniversary_exists today renewal = true.
Proof.
  intros H.
  destruct (validate_date s) eqn:Ev.
  - split; [reflexivity|].
    destruct (validate_date_strptime s Ev) as [renewal [Hs _]].
    exists renewal. split; [exact Hs|].
    destruct (anniversary_exists today renewal) eqn:Ea; [reflexivity|].
    rewrite (calculate_days_until_renewal_raises today renewal s Ev Hs Ea) in H.
    discriminate.
  - unfold calculate_days_until_renewal in H. rewrite Ev in H. discriminate.
Qed.

Lemma anniversary_exists_today (today renewal : date) :
  valid today ->
  month renewal = month today -> day renewal = day today ->
  anniversary_exists today renewal = true.
Proof.
  intros Ht Hm Hd. unfold anniversary_exists. rewrite Hm, Hd.
  unfold valid in Ht. rewrite Ht. cbn [andb].
  assert (E : date_lt (mkdate (year today) (month today) (day today)) today = false).
  { unfold date_lt. cbn [year month day]. rewrite !Z.ltb_irrefl. now rewrite !andb_false_r. }
  now rewrite E.
Qed.

(** X1.  Whatever [calculate_days_until_renewal] returns lies between 0
    and 366: it never returns the negative number its docstring announces
    for a renewal that is past due. *)
Theorem calculate_days_until_renewal_never_negative
    (today : date) (s : string) (r : Z) :
  valid today ->
  calculate_days_until_renewal today s = Return r ->
  0 <= r <= 366.
Proof.
  intros Ht Hr.
  destruct (calculate_days_until_renewal_returns_inv today s r Hr)
    as (Hv & renewal & Hs & Ha).
  destruct (calculate_days_until_renewal_anniversary today renewal s Ht Hv Hs Ha)
    as (r' & Hr' & _ & Hrange & _).
  rewrite Hr in Hr'. injection Hr' as ->. exact Hrange.
Qed.

Lemma calculate_days_until_renewal_never_negative_witness :
  valid (mkdate 2024 12 31)
  /\ calculate_days_until_renewal (mkdate 2024 12 31) "2019-12-30" = Return 364
  /\ 0 <= 364 <= 366.
Proof.
  split; [reflexivity|]. split; [reflexivity|].
  apply (calculate_days_until_renewal_never_negative (mkdate 2024 12 31)
           "2019-12-30" 364); reflexivity.
Defined.

(** X2.  The result is 0 exactly when the month and the day of the renewal
    date are those of today, whatever the year of the renewal date. *)
Theorem calculate_days_until_renewal_due_today
    (today renewal : date) (s : string) :
  valid today ->
  validate_date s = true ->
  strptime s = Some renewal ->
  (calculate_days_until_renewal today s = Return 0
   <-> month renewal = month today /\ day renewal = day today).
Proof.
  intros Ht Hv Hs. split.
  - intros Hr.
    destruct (calculate_days_until_renewal_returns_inv today s 0 Hr)
      as (_ & renewal' & Hs' & Ha).
    rewrite Hs in Hs'. injection Hs' as <-.
    destruct (calculate_days_until_renewal_anniversary today renewal s Ht Hv Hs Ha)
      as (r' & Hr' & _ & _ & Hzero).
    rewrite Hr in Hr'. injection Hr' as <-. now apply Hzero.
  - intros [Hm Hd].
    pose proof (anniversary_exists_today today renewal Ht Hm Hd) as Ha.
    destruct (calculate_days_until_renewal_anniversary today renewal s Ht Hv Hs Ha)
      as (r' & Hr' & _ & _ & Hzero).
    rewrite Hr'. f_equal. apply Hzero. now split.
Qed.

Lemma calculate_days_until_renewal_due_today_witness :
  calculate_days_until_renewal (mkdate 2024 2 29) "2000-02-29" = Return 0
  <-> 2 = 2 /\ 29 = 29.
Proof.
  apply (calculate_days_until_renewal_due_today (mkdate 2024 2 29)
           (mkdate 2000 2 29) "2000-02-29"); reflexivity.
Defined.

(** X3.  The year of the renewal date does not matter: two valid renewal
    dates with the same month and day give the same outcome, be it a
    number or the error. *)
Theorem calculate_days_until_renewal_ignores_year
    (today r1 r2 : date) (s1 s2 : string) :
  validate_date s1 = true -> validate_date s2 = true ->
  strptime s1 = Some r1 -> strptime s2 = Some r2 ->
  month r1 = month r2 -> day r1 = day r2 ->
  calculate_days_until_renewal today s1 = calculate_days_until_renewal today s2.
Proof.
  intros Hv1 Hv2 Hs1 Hs2 Hm Hd.
  unfold calculate_days_until_renewal, replace_year.
  now rewrite Hv1, Hv2, Hs1, Hs2, Hm, Hd.
Qed.

Lemma calculate_days_until_renewal_ignores_year_witness :
  calculate_days_until_renewal (mkdate 2025 6 1) "1999-07-04"
  = calculate_days_until_renewal (mkdate 2025 6 1) "2024-07-04".
Proof.
  apply (calculate_days_until_renewal_ignores_year (mkdate 2025 6 1)
           (mkdate 1999 7 4) (mkdate 2024 7 4)); reflexivity.
Defined.

(** X4.  For every valid renewal date that is not a 29 February and every
    today before the year 9999 the function returns a number. *)
Theorem calculate_days_until_renewal_returns
    (today renewal : date) (s : string) :
  valid today -> year today < 9999 ->
  validate_date s = true ->
  strptime s = Some renewal ->
  ~ (month renewal = 2 /\ day renewal = 29) ->
  exists r, calculate_days_until_renewal today s = Return r.
Proof.
  intros Ht Hy Hv Hs Hne.
  pose proof (strptime_valid s renewal Hs) as Hr.
  pose proof (anniversary_exists_not_leap_day today renewal Ht Hr Hy Hne) as Ha.
  destruct (calculate_days_until_renewal_anniversary today renewal s Ht Hv Hs Ha)
    as (r & Hr' & _).
  now exists r.
Qed.

Lemma calculate_days_until_renewal_returns_witness :
  exists r, calculate_days_until_renewal (mkdate 2023 3 1) "2024-02-28" = Return r.
Proof.
  apply (calculate_days_until_renewal_returns (mkdate 2023 3 1) (mkdate 2024 2 28));
    try reflexivity.
  cbn [month day]. intros [_ H]. discriminate H.
Defined.

Lemma calculate_days_until_renewal_returns_iff (today renewal : date) (s : string) :
  valid today -> validate_date s = true -> strptime s = Some renewal ->
  ((exists r, calculate_days_until_renewal today s = Return r)
   <-> anniversary_exists today renewal = true).
Proof.
  intros Ht Hv Hs. split.
  - intros [r Hr].
    destruct (calculate_days_until_renewal_returns_inv today s r Hr)
      as (_ & renewal' & Hs' & Ha).
    rewrite Hs in Hs'. now injection Hs' as <-.
  - intros Ha.
    destruct (calculate_days_until_renewal_anniversary today renewal s Ht Hv Hs Ha)
      as (r & Hr & _).
    now exists r.
Qed.

Lemma is_leap_next (y : Z) : is_leap y = true -> is_leap (y + 1) = false.
Proof.
  unfold is_leap. intros H. apply andb_true_iff in H. destruct H as [H4 _].
  apply Z.eqb_eq in H4.
  assert (E : ((y + 1) mod 4 =? 0) = false)
    by (apply Z.eqb_neq; Z.div_mod_to_equations; lia).
  now rewrite E.
Qed.

(** X5.  A renewal on 29 February can be evaluated only from a leap year
    and no later than its February: on every other today the function
    raises. *)
Theorem calculate_days_until_renewal_leap_day
    (today renewal : date) (s : string) :
  valid today ->
  validate_date s = true ->
  strptime s = Some renewal ->
  month renewal = 2 -> day renewal = 29 ->
  ((exists r, calculate_days_until_renewal today s = Return r)
   <-> is_leap (year today) = true /\ month today <= 2).
Proof.
  intros Ht Hv Hs Hm Hd.
  rewrite (calculate_days_until_renewal_returns_iff today renewal s Ht Hv Hs).
  unfold anniversary_exists. rewrite Hm, Hd.
  apply check_date_fields_iff in Ht. destruct Ht as (Hy & Htm & Htd).
  assert (Hc : forall y, 1 <= y <= 9999 ->
                         check_date_fields y 2 29 = is_leap y).
  { intros y Hy'. unfold check_date_fields, MINYEAR, MAXYEAR, days_in_month.
    cbn [Z.eqb Pos.eqb andb].
    destruct (Z.leb_spec 1 y); [|lia]. destruct (Z.leb_spec y 9999); [|lia].
    destruct (is_leap y); reflexivity. }
  rewrite (Hc (year today) Hy).
  destruct (is_leap (year today)) eqn:El; cbn [andb].
  - assert (Hnext : check_date_fields (year today + 1) 2 29 = false).
    { unfold check_date_fields, days_in_month. rewrite (is_leap_next _ El).
      cbn. now rewrite !andb_false_r. }
    rewrite Hnext, orb_false_r, negb_true_iff.
    assert (Hdim : month today = 2 -> day today <= 29).
    { intros E. rewrite E in Htd. unfold days_in_month in Htd. rewrite El in Htd.
      cbn in Htd. lia. }
    split.
    + intros Hlt. split; [reflexivity|].
      destruct (Z.le_gt_cases (month today) 2) as [|Hgt]; [assumption|].
      assert (date_lt (mkdate (year today) 2 29) today = true); [|congruence].
      apply date_lt_iff. cbn [year month day]. right. split; [reflexivity|lia].
    + intros [_ Hle].
      destruct (date_lt (mkdate (year today) 2 29) today) eqn:E; [|reflexivity].
      apply date_lt_iff in E. cbn [year month day] in E. lia.
  - split; [discriminate | intros [H _]; discriminate].
Qed.

Lemma calculate_days_until_renewal_leap_day_witness :
  (exists r, calculate_days_until_renewal (mkdate 2024 1 15) "2020-02-29" = Return r)
  <-> is_leap 2024 = true /\ 1 <= 2.
Proof.
  apply (calculate_days_until_renewal_leap_day (mkdate 2024 1 15) (mkdate 2020 2 29)
           "2020-02-29"); reflexivity.
Defined.

(** ** [get_date_range_days] and [is_date_in_range] *)

Lemma get_date_range_days_valid (a b : string) (da db : date) :
  validate_date a = true -> validate_date b = true ->
  strptime a = Some da -> strptime b = Some db ->
  get_date_range_days a b = Return (toordinal db - toordinal da).
Proof.
  intros Ha Hb Hsa Hsb. unfold get_date_range_days.
  now rewrite Ha, Hb, Hsa, Hsb.
Qed.

(** X6.  [get_date_range_days] returns a number exactly when both strings
    are valid dates, and raises "Invalid date format" otherwise. *)
Theorem get_date_range_days_defined (start_date end_date : string) :
  ((exists n, get_date_range_days start_date end_date = Return n)
   <-> validate_date start_date = true /\ validate_date end_date = true)
  /\ (validate_date start_date = false \/ validate_date end_date = false ->
      get_date_range_days start_date end_date
      = Raise (ValueError "Invalid date format")).
Proof.
  split; [split|].
  - intros [n Hn]. unfold get_date_range_days in Hn.
    destruct (validate_date start_date), (validate_date end_date);
      cbn [negb orb] in Hn; try discriminate. now split.
  - intros [Ha Hb].
    destruct (validate_date_strptime _ Ha) as [da [Hsa _]].
    destruct (validate_date_strptime _ Hb) as [db [Hsb _]].
    rewrite (get_date_range_days_valid _ _ da db Ha Hb Hsa Hsb). eauto.
  - unfold get_date_range_days. intros [-> | ->]; cbn [negb orb];
      [reflexivity | now rewrite orb_true_r].
Qed.

Lemma get_date_range_days_defined_witness :
  get_date_range_days "2024-02-30" "2024-03-01"
  = Raise (ValueError "Invalid date format").
Proof.
  apply (proj2 (get_date_range_days_defined "2024-02-30" "2024-03-01")).
  left. reflexivity.
Defined.

(** X7.  Between valid dates the number of days is 0 exactly when the two
    strings are read as the same date, and positive exactly when the start
    date is the earlier one. *)
Theorem get_date_range_days_sign (start_date end_date : string) (ds de : date) :
  validate_date start_date = true -> validate_date end_date = true ->
  strptime start_date = Some ds -> strptime end_date = Some de ->
  exists n,
    get_date_range_days start_date end_date = Return n
    /\ (n = 0 <-> ds = de)
    /\ (0 < n <-> date_lt ds de = true).
Proof.
  intros Ha Hb Hsa Hsb.
  pose proof (strptime_valid _ _ Hsa) as Va.
  pose proof (strptime_valid _ _ Hsb) as Vb.
  exists (toordinal de - toordinal ds).
  split; [now apply get_date_range_days_valid|]. split.
  - split.
    + intros H0. apply toordinal_inj; try assumption. lia.
    + intros ->. lia.
  - rewrite (date_lt_toordinal_iff ds de Va Vb). lia.
Qed.

Lemma get_date_range_days_sign_witness :
  exists n,
    get_date_range_days "2023-12-31" "2024-03-01" = Return n
    /\ (n = 0 <-> mkdate 2023 12 31 = mkdate 2024 3 1)
    /\ (0 < n <-> date_lt (mkdate 2023 12 31) (mkdate 2024 3 1) = true).
Proof.
  apply (get_date_range_days_sign "2023-12-31" "2024-03-01"); reflexivity.
Defined.

(** X8.  The days between valid dates add up along a chain of dates and
    change sign when the two dates are swapped. *)
Theorem get_date_range_days_chain (a b c : string) :
  validate_date a = true -> validate_date b = true -> validate_date c = true ->
  exists x y z w,
    get_date_range_days a b = Return x
    /\ get_date_range_days b c = Return y
    /\ get_date_range_days a c = Return z
    /\ get_date_range_days b a = Return w
    /\ z = x + y
    /\ w = - x.
Proof.
  intros Ha Hb Hc.
  destruct (validate_date_strptime _ Ha) as [da [Hsa _]].
  destruct (validate_date_strptime _ Hb) as [db [Hsb _]].
  destruct (validate_date_strptime _ Hc) as [dc [Hsc _]].
  exists (toordinal db - toordinal da), (toordinal dc - toordinal db),
    (toordinal dc - toordinal da), (toordinal da - toordinal db).
  repeat split; try (now apply get_date_range_days_valid); lia.
Qed.

Lemma get_date_range_days_chain_witness :
  exists x y z w,
    get_date_range_days "2023-12-25" "2024-02-29" = Return x
    /\ get_date_range_days "2024-02-29" "2025-01-01" = Return y
    /\ get_date_range_days "2023-12-25" "2025-01-01" = Return z
    /\ get_date_range_days "2024-02-29" "2023-12-25" = Return w
    /\ z = x + y
    /\ w = - x.
Proof.
  apply (get_date_range_days_chain "2023-12-25" "2024-02-29" "2025-01-01");
    reflexivity.
Defined.

(** X9.  [is_date_in_range] answers [true] exactly when the days from the
    start to the checked date and from the checked date to the end, as
    [get_date_range_days] counts them, are both not negative. *)
Theorem is_date_in_range_days (check_date start_date end_date : string) :
  validate_date check_date = true ->
  validate_date start_date = true ->
  validate_date end_date = true ->
  exists x y b,
    get_date_range_days start_date check_date = Return x
    /\ get_date_range_days check_date end_date = Return y
    /\ is_date_in_range check_date start_date end_date = Return b
    /\ (b = true <-> 0 <= x /\ 0 <= y).
Proof.
  intros Hc Hs He.
  destruct (validate_date_strptime _ Hc) as [dc [Hsc Vc]].
  destruct (validate_date_strptime _ Hs) as [ds [Hss Vs]].
  destruct (validate_date_strptime _ He) as [de [Hse Ve]].
  exists (toordinal dc - toordinal ds), (toordinal de - toordinal dc),
    (date_le ds dc && date_le dc de).
  split; [now apply get_date_range_days_valid|].
  split; [now apply get_date_range_days_valid|].
  split.
  - unfold is_date_in_range. cbn [forallb].
    now rewrite Hc, Hs, He, Hsc, Hss, Hse.
  - rewrite andb_true_iff, (date_le_toordinal_iff ds dc Vs Vc),
      (date_le_toordinal_iff dc de Vc Ve). lia.
Qed.

Lemma is_date_in_range_days_witness :
  exists x y b,
    get_date_range_days "2024-01-01" "2024-02-29" = Return x
    /\ get_date_range_days "2024-02-29" "2024-03-01" = Return y
    /\ is_date_in_range "2024-02-29" "2024-01-01" "2024-03-01" = Return b
    /\ (b = true <-> 0 <= x /\ 0 <= y).
Proof.
  apply (is_date_in_range_days "2024-02-29" "2024-01-01" "2024-03-01");
    reflexivity.
Defined.

Lemma of_string_onto (u : Unicode.str) :
  Forall (fun c => 0 <= c < 256) u -> exists s, u = Unicode.of_string s.
Proof.
  induction 1 as [|c u Hc _ [s ->]]; [now exists ""|].
  exists (String (ascii_of_N (Z.to_N c)) s). cbn [Unicode.of_string]. f_equal.
  unfold code. rewrite N_ascii_embedding; lia.
Qed.

Lemma of_string_latin1 (s : string) :
  Forall (fun c => 0 <= c < 256) (Unicode.of_string s).
Proof.
  induction s as [|c s IH]; cbn [Unicode.of_string]; constructor;
    [apply code_range | exact IH].
Qed.

Lemma length_of_string (s : string) :
  List.length (Unicode.of_string s) = String.length s.
Proof. induction s as [|c s IH]; cbn; congruence. Qed.

(** X10.  Among the strings of the code points 0..255, a valid date string
    has ten characters and is determined by its date: two valid strings
    that [strptime] reads as the same date are the same string. *)
Theorem validate_date_canonical (decimal : Z -> option Z) (u1 u2 : Unicode.str) :
  Unicode.latin1_table decimal ->
  Forall (fun c => 0 <= c < 256) u1 ->
  Forall (fun c => 0 <= c < 256) u2 ->
  Unicode.validate_date decimal u1 = true ->
  Unicode.validate_date decimal u2 = true ->
  List.length u1 = 10%nat
  /\ (Unicode.strptime decimal u1 = Unicode.strptime decimal u2 -> u1 = u2).
Proof.
  intros Hlatin F1 F2.
  destruct (of_string_onto u1 F1) as [s1 ->].
  destruct (of_string_onto u2 F2) as [s2 ->].
  rewrite !(validate_date_of_string decimal Hlatin),
    !(strptime_of_string decimal Hlatin).
  intros H1 H2. split.
  - rewrite length_of_string.
    destruct (validate_date_digits s1 H1)
      as (a1 & a2 & a3 & a4 & a5 & a6 & a7 & a8 & -> & _). reflexivity.
  - intros E. f_equal. now apply strptime_inj.
Qed.

Lemma validate_date_canonical_witness :
  List.length (Unicode.of_string "2024-02-29") = 10%nat
  /\ (Unicode.strptime Unicode.sample_table (Unicode.of_string "2024-02-29")
      = Unicode.strptime Unicode.sample_table (Unicode.of_string "2024-03-01")
      -> Unicode.of_string "2024-02-29" = Unicode.of_string "2024-03-01").
Proof.
  apply (validate_date_canonical Unicode.sample_table
           (Unicode.of_string "2024-02-29") (Unicode.of_string "2024-03-01")
           sample_table_latin1).
  - apply of_string_latin1.
  - apply of_string_latin1.
  - reflexivity.
  - reflexivity.
Defined.

(** ** Lengths of strings *)

Lemma len_nonneg (s : string) : 0 <= len s.
Proof. unfold len. lia. Qed.

Lemma len_append (s t : string) : len (s ++ t) = len s + len t.
Proof.
  unfold len. induction s as [|c s IH]; cbn [String.append String.length].
  - lia.
  - rewrite Nat2Z.inj_succ in *. lia.
Qed.

Lemma len_substring_0 (n : nat) (s : string) :
  len (String.substring 0 n s) = Z.min (Z.of_nat n) (len s).
Proof.
  unfold len. revert s. induction n as [|n IH]; intros s.
  - destruct s; cbn; lia.
  - destruct s as [|c s]; cbn [String.substring String.length]; [lia|].
    specialize (IH s). rewrite !Nat2Z.inj_succ. lia.
Qed.


Lemma len_slice_to (text : string) (stop : Z) :
  len (slice_to text stop)
  = if stop <? 0 then Z.max (len text + stop) 0 else Z.min stop (len text).
Proof.
  unfold slice_to. rewrite len_substring_0.
  pose proof (len_nonneg text).
  destruct (Z.ltb_spec stop 0); rewrite Z2Nat.id; lia.
Qed.

(** ** [truncate_string] *)

Lemma len_truncate_string (text : string) (max_length : Z) :
  len (truncate_string text max_length)
  = if len text <=? max_length then len text
    else if max_length <? 3 then Z.max (len text + max_length - 3) 0 + 3
    else max_length.
Proof.
  unfold truncate_string.
  destruct (Z.leb_spec (len text) max_length); [reflexivity|].
  rewrite len_append, len_slice_to. change (len "...") with 3.
  destruct (Z.ltb_spec (max_length - 3) 0), (Z.ltb_spec max_length 3); lia.
Qed.

(** X11.  The result of [truncate_string] fits the maximal length exactly
    when the text already fits or the maximal length is at least 3: below
    3 a text that is too long comes back longer than allowed. *)
Theorem truncate_string_fits (text : string) (max_length : Z) :
  len (truncate_string text max_length) <= max_length
  <-> len text <= max_length \/ 3 <= max_length.
Proof.
  rewrite len_truncate_string. pose proof (len_nonneg text).
  destruct (Z.leb_spec (len text) max_length), (Z.ltb_spec max_length 3); lia.
Qed.

(** X12.  For a maximal length of at least 3, a text that is too long is
    cut to exactly that length, its first characters followed by three
    dots, and truncating twice is truncating once. *)
Theorem truncate_string_idempotent (text : string) (max_length : Z) :
  3 <= max_length ->
  truncate_string (truncate_string text max_length) max_length
  = truncate_string text max_length
  /\ (max_length < len text ->
      len (truncate_string text max_length) = max_length
      /\ truncate_string text max_length
         = String.substring 0 (Z.to_nat (max_length - 3)) text ++ "...").
Proof.
  intros Hm. split.
  - pose proof (len_truncate_string text max_length) as Hl.
    unfold truncate_string at 1.
    destruct (Z.leb_spec (len (truncate_string text max_length)) max_length)
      as [_|Hgt]; [reflexivity|].
    exfalso. pose proof (len_nonneg text).
    destruct (Z.leb_spec (len text) max_length), (Z.ltb_spec max_length 3); lia.
  - intros Hlong. split.
    + rewrite len_truncate_string.
      destruct (Z.leb_spec (len text) max_length), (Z.ltb_spec max_length 3); lia.
    + unfold truncate_string, slice_to.
      destruct (Z.leb_spec (len text) max_length); [lia|].
      destruct (Z.ltb_spec (max_length - 3) 0); [lia|].
      now rewrite Z.min_l by lia.
Qed.

Lemma truncate_string_idempotent_witness :
  truncate_string (truncate_string "Adobe Creative Cloud" 10) 10
  = truncate_string "Adobe Creative Cloud" 10
  /\ (10 < len "Adobe Creative Cloud" ->
      len (truncate_string "Adobe Creative Cloud" 10) = 10
      /\ truncate_string "Adobe Creative Cloud" 10
         = String.substring 0 (Z.to_nat (10 - 3)) "Adobe Creative Cloud" ++ "...").
Proof.
  apply (truncate_string_idempotent "Adobe Creative Cloud" 10). lia.
Defined.

(** ** [format_table_row] *)





(** ** [strip] and the validators of text fields *)

Lemma rstrip_cons (c : ascii) (s : string) :
  rstrip (String c s)
  = if is_space c && (rstrip s =? "")%string then "" else String c (rstrip s).
Proof.
  cbn [rstrip]. destruct (rstrip s) as [|c' r].
  - cbn. now destruct (is_space c).
  - now rewrite andb_false_r.
Qed.

Lemma rstrip_idempotent (s : string) : rstrip (rstrip s) = rstrip s.
Proof.
  induction s as [|c s IH]; [reflexivity|].
  rewrite rstrip_cons.
  destruct (is_space c && (rstrip s =? "")%string) eqn:E; [reflexivity|].
  rewrite rstrip_cons, IH, E. reflexivity.
Qed.

Lemma lstrip_head (s : string) :
  lstrip s = "" \/ exists c r, lstrip s = String c r /\ is_space c = false.
Proof.
  induction s as [|c s IH]; [now left|].
  cbn [lstrip]. destruct (is_space c) eqn:E; [exact IH|].
  right. now exists c, s.
Qed.

Lemma lstrip_rstrip_head (c : ascii) (r : string) :
  is_space c = false -> lstrip (rstrip (String c r)) = rstrip (String c r).
Proof.
  intros Hc. rewrite rstrip_cons, Hc. cbn [andb lstrip]. now rewrite Hc.
Qed.

Lemma strip_idempotent (s : string) : strip (strip s) = strip s.
Proof.
  unfold strip. destruct (lstrip_head s) as [->|(c & r & -> & Hc)]; [reflexivity|].
  now rewrite (lstrip_rstrip_head c r Hc), rstrip_idempotent.
Qed.

Lemma lstrip_spaces (s : string) :
  string_forall is_space s = true -> lstrip s = "".
Proof.
  induction s as [|c s IH]; [reflexivity|].
  cbn [string_forall lstrip]. intros H. apply andb_true_iff in H.
  destruct H as [-> H]. now apply IH.
Qed.

Lemma validate_text_iff (upper : Z) (s : string) :
  validate_text upper s = true <-> 2 <= len (strip s) <= upper.
Proof.
  unfold validate_text.
  destruct (String.eqb_spec s "") as [->|_]; cbn [orb].
  - cbn. lia.
  - destruct (String.eqb_spec (strip s) "") as [->|_].
    + cbn. lia.
    + destruct (Z.ltb_spec (len (strip s)) 2), (Z.ltb_spec upper (len (strip s)));
        cbn [orb]; split; intros; try discriminate; try reflexivity; lia.
Qed.

(** X14.  Each validator of a text field accepts exactly the strings that,
    stripped of the white space at both ends, have between 2 and 100
    characters (the name) or between 2 and 50 (the category and the payment
    method); so validating a stripped input, as the menu does, and
    validating the raw input agree. *)
Theorem validate_text_fields (s : string) :
  (validate_subscription_name s = true <-> 2 <= len (strip s) <= 100)
  /\ (validate_category s = true <-> 2 <= len (strip s) <= 50)
  /\ (validate_payment_method s = true <-> 2 <= len (strip s) <= 50)
  /\ validate_subscription_name (strip s) = validate_subscription_name s
  /\ validate_category (strip s) = validate_category s
  /\ validate_payment_method (strip s) = validate_payment_method s.
Proof.
  change validate_subscription_name with (validate_text 100).
  change validate_category with (validate_text 50).
  change validate_payment_method with (validate_text 50).
  assert (Hs : forall u, validate_text u (strip s) = validate_text u s).
  { intros u. pose proof (validate_text_iff u (strip s)) as H1.
    pose proof (validate_text_iff u s) as H2.
    rewrite strip_idempotent in H1.
    destruct (validate_text u (strip s)), (validate_text u s); try reflexivity.
    - symmetry. now apply H2, H1.
    - now apply H1, H2. }
  split; [apply validate_text_iff|].
  split; [apply validate_text_iff|].
  split; [apply validate_text_iff|].
  split; [apply Hs|]. split; apply Hs.
Qed.

(** X15.  A text made of white space only is rejected by the three
    validators; the category and the payment method are validated alike,
    and what is accepted as one of them is accepted as a name. *)
Theorem validate_text_blank (s : string) :
  (string_forall is_space s = true ->
   validate_subscription_name s = false
   /\ validate_category s = false
   /\ validate_payment_method s = false)
  /\ validate_category s = validate_payment_method s
  /\ (validate_category s = true -> validate_subscription_name s = true).
Proof.
  change validate_subscription_name with (validate_text 100).
  change validate_category with (validate_text 50).
  change validate_payment_method with (validate_text 50).
  assert (Hblank : forall u, string_forall is_space s = true ->
                             validate_text u s = false).
  { intros u Hb. pose proof (validate_text_iff u s) as H.
    unfold strip in H. rewrite (lstrip_spaces s Hb) in H. cbn in H.
    destruct (validate_text u s); [|reflexivity].
    assert (2 <= 0 <= u) by (now apply H). lia. }
  split; [|split].
  - intros Hb. repeat split; now apply Hblank.
  - reflexivity.
  - intros H. apply validate_text_iff. apply validate_text_iff in H. lia.
Qed.

Lemma validate_text_blank_witness :
  validate_subscription_name "   " = false
  /\ validate_category "   " = false
  /\ validate_payment_method "   " = false.
Proof.
  apply (proj1 (validate_text_blank "   ")). reflexivity.
Defined.

(** ** The rowids of the table *)

Lemma ids_between_bounds (lo hi : Z) (l : list row) :
  ids_between lo hi l = true ->
  lo <= hi /\ Forall (fun r => lo < row_id r <= hi) l.
Proof.
  revert lo. induction l as [|r l IH]; intros lo; cbn [ids_between].
  - intros H. apply Z.leb_le in H. split; [exact H | constructor].
  - intros H. apply andb_true_iff in H. destruct H as [H1 H2].
    apply Z.ltb_lt in H1. destruct (IH _ H2) as [Hle Hall].
    split; [lia|]. constructor; [lia|].
    eapply Forall_impl; [|exact Hall]. cbn beta. intros; lia.
Qed.

Lemma ids_between_sorted (lo hi : Z) (l : list row) :
  ids_between lo hi l = true -> StronglySorted Z.lt (map row_id l).
Proof.
  revert lo. induction l as [|r l IH]; intros lo; cbn [ids_between map].
  - constructor.
  - intros H. apply andb_true_iff in H. destruct H as [_ H2].
    constructor; [now apply (IH (row_id r))|].
    destruct (ids_between_bounds _ _ _ H2) as [_ Hall].
    apply Forall_map. eapply Forall_impl; [|exact Hall]. cbn beta. intros; lia.
Qed.

Lemma ids_between_weaken (lo lo' hi hi' : Z) (l : list row) :
  lo' <= lo -> hi <= hi' ->
  ids_between lo hi l = true -> ids_between lo' hi' l = true.
Proof.
  intros Hlo Hhi. destruct l as [|r l]; cbn [ids_between].
  - rewrite !Z.leb_le. lia.
  - intros H. apply andb_true_iff in H. destruct H as [H1 H2].
    apply Z.ltb_lt in H1. apply andb_true_iff. split; [apply Z.ltb_lt; lia|].
    clear H1 Hlo. revert H2. generalize (row_id r).
    induction l as [|r' l IH]; intros lo0; cbn [ids_between].
    + rewrite !Z.leb_le. lia.
    + intros H. apply andb_true_iff in H. destruct H as [H1 H2].
      rewrite H1. cbn [andb]. now apply IH.
Qed.

Lemma ids_between_app (lo hi : Z) (l : list row) (r : row) :
  ids_between lo hi l = true -> hi < row_id r ->
  ids_between lo (row_id r) (l ++ [r]) = true.
Proof.
  revert lo. induction l as [|r' l IH]; intros lo; cbn [ids_between app].
  - intros H Hr. apply Z.leb_le in H.
    apply andb_true_iff. split; [apply Z.ltb_lt | apply Z.leb_le]; lia.
  - intros H Hr. apply andb_true_iff in H. destruct H as [H1 H2].
    rewrite H1. cbn [andb]. now apply IH.
Qed.

Lemma ids_between_filter (p : row -> bool) (lo hi : Z) (l : list row) :
  ids_between lo hi l = true -> ids_between lo hi (filter p l) = true.
Proof.
  revert lo. induction l as [|r l IH]; intros lo; cbn [ids_between filter].
  - trivial.
  - intros H. apply andb_true_iff in H. destruct H as [H1 H2].
    destruct (p r); cbn [ids_between].
    + rewrite H1. cbn [andb]. now apply IH.
    + apply IH. apply Z.ltb_lt in H1.
      apply (ids_between_weaken (row_id r) lo hi hi); [lia | lia | exact H2].
Qed.

Lemma row_id_update_row (s : Subscription) (i : Z) (r : row) :
  row_id (update_row s i r) = row_id r.
Proof.
  unfold update_row. destruct (Z.eqb_spec (row_id r) i) as [E|E]; [|reflexivity].
  cbn [row_id]. now symmetry.
Qed.

Lemma ids_between_update (s : Subscription) (i lo hi : Z) (l : list row) :
  ids_between lo hi (map (update_row s i) l) = ids_between lo hi l.
Proof.
  revert lo. induction l as [|r l IH]; intros lo; cbn [ids_between map].
  - reflexivity.
  - now rewrite row_id_update_row, IH.
Qed.

Lemma next_rowid_wf (db : database) :
  store_wf db = true -> next_rowid db = seq db + 1.
Proof.
  unfold store_wf, next_rowid. intros H.
  destruct (ids_between_bounds _ _ _ H) as [Hle Hall].
  assert (Hmax : 0 <= fold_right Z.max 0 (map row_id (rows db)) <= seq db).
  { clear H. induction Hall as [|r l Hr _ IH]; cbn [map fold_right]; lia. }
  lia.
Qed.

Lemma update_subscription_rows (db db' : database) (s : Subscription) (b : bool) :
  update_subscription db s = Return (b, db') ->
  exists i, id s = Some i /\ i <> 0
            /\ db' = mkdb (map (update_row s i) (rows db)) (seq db).
Proof.
  unfold update_subscription.
  destruct (id s) as [i|]; cbn [id_missing]; [|discriminate].
  destruct (Z.eqb_spec i 0) as [E|E]; [discriminate|].
  intros [= _ <-]. now exists i.
Qed.

Lemma store_wf_add (db : database) (s : Subscription) :
  store_wf db = true -> store_wf (snd (add_subscription db s)) = true.
Proof.
  intros H. unfold store_wf in *.
  cbn [add_subscription snd rows seq]. rewrite (next_rowid_wf db H).
  apply (ids_between_app 0 (seq db) (rows db)
           (mkrow (seq db + 1) (name s) (category s) (cost s) (renewal_date s)
              (payment_method s))); [exact H | cbn [row_id]; lia].
Qed.

Lemma store_wf_update (db db' : database) (s : Subscription) (b : bool) :
  store_wf db = true ->
  update_subscription db s = Return (b, db') -> store_wf db' = true.
Proof.
  intros H Hu.
  destruct (update_subscription_rows db db' s b Hu) as (i & _ & _ & ->).
  unfold store_wf in *. cbn [rows seq]. now rewrite ids_between_update.
Qed.

Lemma store_wf_delete (db : database) (i : Z) :
  store_wf db = true -> store_wf (snd (delete_subscription db i)) = true.
Proof.
  intros H. unfold store_wf in *. cbn [delete_subscription snd rows seq].
  now apply ids_between_filter.
Qed.

(** X16.  The operations keep the rowids in order.  In the empty store and
    in every store obtained from it by adding, updating and deleting, the
    ids of the rows are positive, strictly increasing along the table, hence
    distinct, and none exceeds the AUTOINCREMENT counter. *)
Theorem store_wf_preserved :
  store_wf empty_db = true
  /\ (forall db s, store_wf db = true ->
        store_wf (snd (add_subscription db s)) = true)
  /\ (forall db s b db', store_wf db = true ->
        update_subscription db s = Return (b, db') -> store_wf db' = true)
  /\ (forall db i, store_wf db = true ->
        store_wf (snd (delete_subscription db i)) = true)
  /\ (forall db, store_wf db = true ->
        StronglySorted Z.lt (map row_id (rows db))
        /\ NoDup (map row_id (rows db))
        /\ Forall (fun r => 0 < row_id r <= seq db) (rows db)).
Proof.
  split; [reflexivity|]. split; [|split; [|split]].
  - intros db s. apply store_wf_add.
  - intros db s b db'. apply store_wf_update.
  - intros db i. apply store_wf_delete.
  - intros db H. unfold store_wf in H.
    pose proof (ids_between_sorted _ _ _ H) as Hs.
    split; [exact Hs|]. split.
    + clear H. induction Hs as [|i l Hs IH Hi]; constructor; [|exact IH].
      intros Hin. rewrite Forall_forall in Hi. specialize (Hi i Hin). lia.
    + now destruct (ids_between_bounds _ _ _ H).
Qed.

Lemma store_wf_preserved_witness :
  StronglySorted Z.lt (map row_id (rows sample_db))
  /\ NoDup (map row_id (rows sample_db))
  /\ Forall (fun r => 0 < row_id r <= seq sample_db) (rows sample_db).
Proof.
  apply (proj2 (proj2 (proj2 (proj2 store_wf_preserved))) sample_db). reflexivity.
Defined.

(** X17.  Ids are not handed out twice.  In a store with ordered rowids the
    id [add_subscription] returns is one more than the counter, above every
    stored id; deleting a row does not lower the counter, so the id given
    after the deletion of the newest row is a new one. *)
Theorem add_subscription_fresh_id (db : database) (s s' : Subscription) :
  store_wf db = true ->
  let new_id := fst (add_subscription db s) in
  let db1 := snd (add_subscription db s) in
  new_id = seq db + 1
  /\ ~ In new_id (map row_id (rows db))
  /\ (forall j, seq (snd (delete_subscription db1 j)) = new_id)
  /\ fst (add_subscription (snd (delete_subscription db1 new_id)) s') = new_id + 1.
Proof.
  intros H new_id db1.
  assert (Hnew : new_id = seq db + 1) by (apply (next_rowid_wf db H)).
  split; [exact Hnew|]. split; [|split].
  - intros Hin. unfold store_wf in H.
    destruct (ids_between_bounds _ _ _ H) as [_ Hall].
    apply in_map_iff in Hin. destruct Hin as (r & Hr & Hin).
    rewrite Forall_forall in Hall. specialize (Hall r Hin). lia.
  - intros j. reflexivity.
  - assert (H1 : store_wf db1 = true) by (apply store_wf_add, H).
    assert (H2 : store_wf (snd (delete_subscription db1 new_id)) = true)
      by (apply store_wf_delete, H1).
    cbn [add_subscription fst]. now rewrite (next_rowid_wf _ H2).
Qed.

Lemma add_subscription_fresh_id_witness :
  fst (add_subscription sample_db
         (mkSubscription None "Hulu" "Streaming" 7.99 "2024-05-01" "PayPal"))
  = seq sample_db + 1
  /\ fst (add_subscription
            (snd (delete_subscription
                    (snd (add_subscription sample_db
                            (mkSubscription None "Hulu" "Streaming" 7.99
                               "2024-05-01" "PayPal")))
                    5))
            (mkSubscription None "Max" "Streaming" 9.99 "2024-06-01" "PayPal"))
     = 6.
Proof.
  pose proof (add_subscription_fresh_id sample_db
                (mkSubscription None "Hulu" "Streaming" 7.99 "2024-05-01" "PayPal")
                (mkSubscription None "Max" "Streaming" 9.99 "2024-06-01" "PayPal")
                eq_refl) as H.
  cbv zeta in H. destruct H as (H1 & _ & _ & H4). split; [exact H1 | exact H4].
Defined.

(** ** Looking up what was stored *)

Lemma find_app_none {A : Type} (f : A -> bool) (l l' : list A) :
  find f l = None -> find f (l ++ l') = find f l'.
Proof.
  induction l as [|a l IH]; cbn [find app]; [reflexivity|].
  destruct (f a); [discriminate | exact IH].
Qed.

Lemma find_app_last {A : Type} (f : A -> bool) (l : list A) (x : A) :
  f x = false -> find f (l ++ [x]) = find f l.
Proof.
  intros Hx. induction l as [|a l IH]; cbn [find app].
  - now rewrite Hx.
  - destruct (f a); [reflexivity | exact IH].
Qed.

Lemma find_id_above (i : Z) (l : list row) :
  Forall (fun r => row_id r < i) l -> find (fun r => row_id r =? i) l = None.
Proof.
  induction 1 as [|r l Hr _ IH]; cbn [find]; [reflexivity|].
  destruct (Z.eqb_spec (row_id r) i); [lia | exact IH].
Qed.

Lemma row_to_subscription_of_record (i : Z) (s : Subscription) :
  (0 <= cost s)%Q -> validate_date (renewal_date s) = true ->
  row_to_subscription (row_of_subscription i s)
  = Return (mkSubscription (Some i) (name s) (category s) (cost s)
              (renewal_date s) (payment_method s)).
Proof.
  intros Hc Hd. unfold row_to_subscription, row_of_subscription, Subscription_new.
  cbn [row_id row_name row_category row_cost row_renewal_date row_payment_method].
  apply Qle_bool_iff in Hc. now rewrite Hc, Hd.
Qed.

(** X18.  A record with a cost that is not negative and a valid date,
    once added, is returned by [get_subscription_by_id] under the new id,
    equal to what was added but for the id; the answers for all other ids
    are unchanged. *)
Theorem add_then_get (db : database) (s : Subscription) :
  (0 <= cost s)%Q -> validate_date (renewal_date s) = true ->
  let new_id := fst (add_subscription db s) in
  let db' := snd (add_subscription db s) in
  get_subscription_by_id db' new_id
  = Return (Some (mkSubscription (Some new_id) (name s) (category s) (cost s)
                    (renewal_date s) (payment_method s)))
  /\ (forall j, j <> new_id ->
        get_subscription_by_id db' j = get_subscription_by_id db j).
Proof.
  intros Hc Hd new_id db'. subst new_id db'.
  cbn [add_subscription fst snd]. unfold get_subscription_by_id. cbn [rows].
  fold (row_of_subscription (next_rowid db) s). split.
  - rewrite find_app_none.
    + cbn [find row_of_subscription row_id]. rewrite Z.eqb_refl.
      fold (row_of_subscription (next_rowid db) s).
      now rewrite (row_to_subscription_of_record _ s Hc Hd).
    + apply find_id_above. eapply Forall_impl; [|apply row_id_le_max].
      cbn beta. unfold next_rowid. intros; lia.
  - intros j Hj. rewrite find_app_last; [reflexivity|].
    cbn [row_of_subscription row_id]. apply Z.eqb_neq. congruence.
Qed.

Lemma add_then_get_witness :
  get_subscription_by_id
    (snd (add_subscription sample_db
            (mkSubscription None "Hulu" "Streaming" 7.99 "2024-05-01" "PayPal")))
    5
  = Return (Some (mkSubscription (Some 5) "Hulu" "Streaming" 7.99 "2024-05-01"
                    "PayPal")).
Proof.
  apply (add_then_get sample_db
           (mkSubscription None "Hulu" "Streaming" 7.99 "2024-05-01" "PayPal")).
  - apply Qle_bool_iff. reflexivity.
  - reflexivity.
Defined.

(** ** [delete_subscription] *)

Lemma find_filter_other (i j : Z) (l : list row) :
  j <> i ->
  find (fun r => row_id r =? j) (filter (fun r => negb (row_id r =? i)) l)
  = find (fun r => row_id r =? j) l.
Proof.
  intros Hj. induction l as [|r l IH]; cbn [find filter]; [reflexivity|].
  destruct (Z.eqb_spec (row_id r) i) as [E|E]; cbn [negb find].
  - destruct (Z.eqb_spec (row_id r) j); [congruence | exact IH].
  - destruct (row_id r =? j); [reflexivity | exact IH].
Qed.

Lemma find_filter_same (i : Z) (l : list row) :
  find (fun r => row_id r =? i) (filter (fun r => negb (row_id r =? i)) l) = None.
Proof.
  induction l as [|r l IH]; cbn [find filter]; [reflexivity|].
  destruct (row_id r =? i) eqn:E; cbn [negb find]; [exact IH|].
  now rewrite E.
Qed.

Lemma filter_other_ids (i : Z) (l : list row) :
  ~ In i (map row_id l) -> filter (fun r => negb (row_id r =? i)) l = l.
Proof.
  induction l as [|r l IH]; cbn [map In filter]; [reflexivity|].
  intros H. destruct (Z.eqb_spec (row_id r) i); [tauto|].
  cbn [negb]. rewrite IH; tauto.
Qed.

(** X19.  For an id of the 64-bit range, [delete_subscription] answers
    [true] exactly when a row carries the id; an unknown id leaves the
    database as it is.  After the call the id is not found any more, and
    the other ids of that range are found as before. *)
Theorem delete_subscription_spec (db : database) (i : Z) :
  int64 i = true ->
  (fst (delete_subscription db i) = true <-> In i (map row_id (rows db)))
  /\ (~ In i (map row_id (rows db)) -> snd (delete_subscription db i) = db)
  /\ get_subscription_by_id (snd (delete_subscription db i)) i = Return None
  /\ (forall j, int64 j = true -> j <> i ->
        get_subscription_by_id (snd (delete_subscription db i)) j
        = get_subscription_by_id db j).
Proof.
  intros _.
  cbn [delete_subscription fst snd]. unfold get_subscription_by_id. cbn [rows].
  split; [|split; [|split]].
  - split.
    + intros H. destruct (in_dec Z.eq_dec i (map row_id (rows db))) as [|Hn];
        [assumption|].
      rewrite (filter_id_none i (rows db) Hn) in H. discriminate.
    + intros H. pose proof (filter_id_some i (rows db) H) as Hf.
      now destruct (filter (fun r => row_id r =? i) (rows db)).
  - intros H. rewrite (filter_other_ids i (rows db) H). now destruct db.
  - now rewrite find_filter_same.
  - intros j _ Hj. now rewrite find_filter_other.
Qed.

Lemma delete_subscription_spec_witness :
  fst (delete_subscription sample_db 2) = true
  /\ get_subscription_by_id (snd (delete_subscription sample_db 2)) 2 = Return None
  /\ get_subscription_by_id (snd (delete_subscription sample_db 2)) 3
     = get_subscription_by_id sample_db 3.
Proof.
  destruct (delete_subscription_spec sample_db 2 eq_refl) as (H1 & _ & H3 & H4).
  split; [apply H1; vm_compute; auto|].
  split; [exact H3|].
  apply H4; [reflexivity | discriminate].
Defined.

(** ** [update_subscription] and the queries *)

Lemma find_update_row_other (s : Subscription) (i j : Z) (l : list row) :
  j <> i ->
  find (fun r => row_id r =? j) (map (update_row s i) l)
  = find (fun r => row_id r =? j) l.
Proof.
  intros Hj. induction l as [|r l IH]; cbn [find map]; [reflexivity|].
  rewrite row_id_update_row. unfold update_row at 1.
  destruct (Z.eqb_spec (row_id r) j) as [E|E].
  - destruct (Z.eqb_spec (row_id r) i); [congruence | reflexivity].
  - exact IH.
Qed.

Lemma update_subscription_existing (db : database) (s : Subscription) (i : Z) :
  id s = Some i -> i <> 0 -> In i (map row_id (rows db)) ->
  update_subscription db s
  = Return (true, mkdb (map (update_row s i) (rows db)) (seq db)).
Proof.
  intros Hi Hne Hin. unfold update_subscription. rewrite Hi. cbn [id_missing].
  apply Z.eqb_neq in Hne. rewrite Hne. do 2 f_equal.
  pose proof (filter_id_some i (rows db) Hin) as Hf.
  now destruct (filter (fun r => row_id r =? i) (rows db)).
Qed.

(** X20.  After the update of an existing id with a record whose cost is
    not negative and whose date is valid, [get_subscription_by_id] returns
    that very record under the id, and answers as before for every other
    id. *)
Theorem update_then_get (db : database) (s : Subscription) (i : Z) :
  id s = Some i -> i <> 0 -> In i (map row_id (rows db)) ->
  (0 <= cost s)%Q -> validate_date (renewal_date s) = true ->
  exists db',
    update_subscription db s = Return (true, db')
    /\ get_subscription_by_id db' i = Return (Some s)
    /\ (forall j, j <> i ->
          get_subscription_by_id db' j = get_subscription_by_id db j).
Proof.
  intros Hi Hne Hin Hc Hd.
  exists (mkdb (map (update_row s i) (rows db)) (seq db)).
  split; [now apply update_subscription_existing|].
  unfold get_subscription_by_id. cbn [rows]. split.
  - rewrite (find_update_row s i (rows db) Hin).
    rewrite (row_to_subscription_of_record i s Hc Hd). cbn [bind].
    destruct s as [si n c q d p]. cbn [id] in Hi. rewrite Hi. reflexivity.
  - intros j Hj. now rewrite find_update_row_other.
Qed.

Lemma update_then_get_witness :
  exists db',
    update_subscription sample_db
      (mkSubscription (Some 2) "Spotify Family" "Music" 16.99 "2024-01-20" "PayPal")
    = Return (true, db')
    /\ get_subscription_by_id db' 2
       = Return (Some (mkSubscription (Some 2) "Spotify Family" "Music" 16.99
                         "2024-01-20" "PayPal"))
    /\ (forall j, j <> 2 ->
          get_subscription_by_id db' j = get_subscription_by_id sample_db j).
Proof.
  apply (update_then_get sample_db
           (mkSubscription (Some 2) "Spotify Family" "Music" 16.99 "2024-01-20"
              "PayPal") 2).
  - reflexivity.
  - discriminate.
  - vm_compute. auto.
  - apply Qle_bool_iff. reflexivity.
  - reflexivity.
Defined.

Lemma mapM_raises {A B : Type} (f : A -> result B) (l : list A) (a : A) :
  In a l -> (exists e, f a = Raise e) -> exists e, mapM f l = Raise e.
Proof.
  intros Hin [e He]. induction l as [|x l IH]; [destruct Hin|].
  cbn [mapM]. destruct (f x) as [b|e'] eqn:Ex; cbn [bind]; [|eauto].
  destruct Hin as [->|Hin]; [congruence|].
  destruct (IH Hin) as [e'' ->]. cbn [bind]. eauto.
Qed.

Lemma mapM_returns_all {A B : Type} (f : A -> result B) (l : list A) (l' : list B) :
  mapM f l = Return l' -> forall a, In a l -> exists b, f a = Return b.
Proof.
  revert l'. induction l as [|x l IH]; intros l' H a Hin; [destruct Hin|].
  cbn [mapM] in H. destruct (f x) as [b|e] eqn:Ex; cbn [bind] in H; [|discriminate].
  destruct (mapM f l) as [bs|e]; cbn [bind] in H; [|discriminate].
  destruct Hin as [<-|Hin]; [eauto | exact (IH bs eq_refl a Hin)].
Qed.

Lemma in_update_row (s : Subscription) (i : Z) (l : list row) :
  In i (map row_id l) ->
  In (row_of_subscription i s) (map (update_row s i) l).
Proof.
  induction l as [|r l IH]; cbn [map In]; [tauto|].
  intros [H|H].
  - left. unfold update_row. rewrite H, Z.eqb_refl. reflexivity.
  - right. now apply IH.
Qed.

(** X21.  [update_subscription] stores what it is given.  A record whose
    cost was made negative after its construction is accepted for an
    existing id, with the answer [true]; from then on this id cannot be
    read back, and listing the subscriptions, the totals and the upcoming
    renewals all raise. *)
Theorem update_subscription_negative_cost
    (today : date) (days : Z) (db : database) (s : Subscription) (i : Z) :
  id s = Some i -> i <> 0 -> In i (map row_id (rows db)) ->
  (cost s < 0)%Q ->
  exists db',
    update_subscription db s = Return (true, db')
    /\ get_subscription_by_id db' i = Raise (ValueError "Cost cannot be negative")
    /\ (exists e, get_all_subscriptions db' = Raise e)
    /\ (exists e, get_total_monthly_cost db' = Raise e)
    /\ (exists e, get_total_annual_cost db' = Raise e)
    /\ (exists e, get_upcoming_renewals today db' days = Raise e).
Proof.
  intros Hi Hne Hin Hc.
  exists (mkdb (map (update_row s i) (rows db)) (seq db)).
  split; [now apply update_subscription_existing|].
  assert (Hrow : row_to_subscription (row_of_subscription i s)
                 = Raise (ValueError "Cost cannot be negative")).
  { unfold row_to_subscription, row_of_subscription.
    cbn [row_id row_name row_category row_cost row_renewal_date row_payment_method].
    apply Subscription_new_cases. exact Hc. }
  assert (Hall : exists e,
             get_all_subscriptions (mkdb (map (update_row s i) (rows db)) (seq db))
             = Raise e).
  { unfold get_all_subscriptions. cbn [rows].
    apply (mapM_raises _ _ (row_of_subscription i s)); [|eauto].
    eapply Permutation_in; [symmetry; apply order_by_name_perm|].
    now apply in_update_row. }
  split; [|split; [exact Hall|]].
  - unfold get_subscription_by_id. cbn [rows].
    now rewrite (find_update_row s i (rows db) Hin), Hrow.
  - destruct Hall as [e He].
    unfold get_total_annual_cost, get_total_monthly_cost, get_upcoming_renewals.
    rewrite He. cbn [bind]. repeat split; eexists; reflexivity.
Qed.

Lemma update_subscription_negative_cost_witness :
  exists db',
    update_subscription sample_db
      (mkSubscription (Some 1) "Netflix" "Streaming" (-5) "2024-02-15" "Credit Card")
    = Return (true, db')
    /\ get_subscription_by_id db' 1 = Raise (ValueError "Cost cannot be negative")
    /\ (exists e, get_all_subscriptions db' = Raise e)
    /\ (exists e, get_total_monthly_cost db' = Raise e)
    /\ (exists e, get_total_annual_cost db' = Raise e)
    /\ (exists e, get_upcoming_renewals (mkdate 2024 1 5) db' 30 = Raise e).
Proof.
  apply (update_subscription_negative_cost (mkdate 2024 1 5) 30 sample_db
           (mkSubscription (Some 1) "Netflix" "Streaming" (-5) "2024-02-15"
              "Credit Card") 1).
  - reflexivity.
  - discriminate.
  - vm_compute. auto.
  - reflexivity.
Defined.

(** ** [get_all_subscriptions] and [get_subscriptions_by_category] *)

Lemma get_all_subscriptions_returns_valid (db : database) (l : list Subscription) :
  get_all_subscriptions db = Return l -> store_valid db = true.
Proof.
  intros H. unfold store_valid. apply forallb_forall. intros r Hr.
  assert (Hin : In r (order_by_name (rows db)))
    by (eapply Permutation_in; [symmetry; apply order_by_name_perm | exact Hr]).
  destruct (mapM_returns_all _ _ _ H r Hin) as [s Hs].
  unfold row_to_subscription, Subscription_new in Hs. unfold row_valid.
  destruct (Qle_bool 0 (row_cost r)); cbn [negb] in Hs; [|discriminate].
  destruct (validate_date (row_renewal_date r)); [reflexivity | discriminate].
Qed.

(** X25.  [get_all_subscriptions] returns a list exactly when every row
    has a cost that is not negative and a valid date; the list then holds
    the record of every row once, in the order of the names. *)
Theorem get_all_subscriptions_listing (db : database) :
  ((exists l, get_all_subscriptions db = Return l) <-> store_valid db = true)
  /\ (forall l, get_all_subscriptions db = Return l ->
        Permutation l (map subscription_of_row (rows db))
        /\ StronglySorted by_name l).
Proof.
  split.
  - split.
    + intros [l Hl]. now apply (get_all_subscriptions_returns_valid db l).
    + intros Hv. rewrite (get_all_subscriptions_valid db Hv). eauto.
  - intros l Hl. split; [|now apply (get_all_subscriptions_sorted db)].
    pose proof (get_all_subscriptions_returns_valid db l Hl) as Hv.
    rewrite (get_all_subscriptions_valid db Hv) in Hl. injection Hl as <-.
    apply Permutation_map, order_by_name_perm.
Qed.

Lemma get_all_subscriptions_listing_witness :
  Permutation sample_listing (map subscription_of_row (rows sample_db))
  /\ StronglySorted by_name sample_listing.
Proof.
  apply (proj2 (get_all_subscriptions_listing sample_db) sample_listing).
  reflexivity.
Defined.

(** X22.  [get_subscriptions_by_category] returns the records of
    [get_all_subscriptions] whose category is exactly the given one, case
    included, in the same order. *)
Theorem get_subscriptions_by_category_spec
    (db : database) (c : string) (all : list Subscription) :
  get_all_subscriptions db = Return all ->
  get_subscriptions_by_category db c
  = Return (filter (fun s => (category s =? c)%string) all).
Proof.
  intros Hall. unfold get_subscriptions_by_category, order_by_name.
  rewrite <- (filter_stable_sort row_name String.leb String.leb_total
                string_leb_trans).
  apply mapM_filter; [|exact Hall].
  intros r s Hr. apply row_to_subscription_fields in Hr. now subst s.
Qed.

Lemma get_subscriptions_by_category_spec_witness :
  get_subscriptions_by_category sample_db "streaming"
  = Return (filter (fun s => (category s =? "streaming")%string) sample_listing).
Proof.
  apply (get_subscriptions_by_category_spec sample_db "streaming" sample_listing).
  reflexivity.
Defined.

(** ** [get_cost_by_category] *)

Lemma dict_get_add (d : list (string * Q)) (k c : string) (v : Q) :
  dict_get (dict_add d k v) c
  = if (k =? c)%string
    then Some (match dict_get d k with
               | Some v0 => (v0 + v)%Q
               | None => v
               end)
    else dict_get d c.
Proof.
  induction d as [|[k' v'] d IH]; cbn [dict_add dict_get].
  - reflexivity.
  - destruct (String.eqb_spec k' k) as [->|Hk]; cbn [dict_get].
    + destruct (String.eqb_spec k c); reflexivity.
    + rewrite IH.
      destruct (String.eqb_spec k' c) as [->|Hc];
        destruct (String.eqb_spec k c) as [->|Hkc]; try reflexivity; congruence.
Qed.

Lemma fold_dict_get (subs : list Subscription) (d0 : list (string * Q)) (c : string) :
  dict_get (fold_left (fun d s => dict_add d (category s) (cost s)) subs d0) c
  = match dict_get d0 c with
    | Some v0 => Some (fold_left Qplus (category_costs c subs) v0)
    | None => added_up (category_costs c subs)
    end.
Proof.
  revert d0. induction subs as [|s subs IH]; intros d0; cbn [fold_left].
  - unfold category_costs. cbn. now destruct (dict_get d0 c).
  - rewrite IH, dict_get_add. unfold category_costs. cbn [filter].
    destruct (String.eqb_spec (category s) c) as [->|Hc]; cbn [map].
    + now destruct (dict_get d0 c).
    + reflexivity.
Qed.

Lemma dict_add_keys (d : list (string * Q)) (k : string) (v : Q) :
  (forall k', In k' (map fst (dict_add d k v)) <-> k' = k \/ In k' (map fst d))
  /\ (NoDup (map fst d) -> NoDup (map fst (dict_add d k v))).
Proof.
  induction d as [|[k0 v0] d [IHin IHnd]]; cbn [dict_add map fst].
  - split.
    + intros k'. cbn [In]. intuition congruence.
    + intros _. repeat constructor. intros [].
  - destruct (String.eqb_spec k0 k) as [->|Hk]; cbn [map fst].
    + split; [|trivial]. intros k'. cbn [In]. intuition congruence.
    + split.
      * intros k'. cbn [In]. rewrite IHin. intuition congruence.
      * intros Hnd. inversion Hnd as [|? ? Hnotin Hnd']; subst.
        constructor; [|now apply IHnd].
        rewrite IHin. intros [E|Hin]; [congruence | contradiction].
Qed.

Lemma fold_dict_keys (subs : list Subscription) (d0 : list (string * Q)) :
  (forall c,
      In c (map fst (fold_left (fun d s => dict_add d (category s) (cost s)) subs d0))
      <-> In c (map fst d0) \/ In c (map category subs))
  /\ (NoDup (map fst d0) ->
      NoDup (map fst (fold_left (fun d s => dict_add d (category s) (cost s))
                        subs d0))).
Proof.
  revert d0. induction subs as [|s subs IH]; intros d0; cbn [fold_left map].
  - split; [intros c; cbn [In]; tauto | trivial].
  - destruct (IH (dict_add d0 (category s) (cost s))) as [IHin IHnd].
    destruct (dict_add_keys d0 (category s) (cost s)) as [Hin Hnd].
    split.
    + intros c. rewrite IHin, Hin. cbn [In]. intuition congruence.
    + intros H. apply IHnd, Hnd, H.
Qed.

(** X23.  [get_cost_by_category] builds one entry for every category that
    some listed record has, and no other entry; the value of a category is
    the sum of the costs of its records, added in the order of the list. *)
Theorem get_cost_by_category_spec (db : database) (subs : list Subscription) :
  get_all_subscriptions db = Return subs ->
  exists d,
    get_cost_by_category db = Return d
    /\ NoDup (map fst d)
    /\ (forall c, In c (map fst d) <-> In c (map category subs))
    /\ (forall c, dict_get d c = added_up (category_costs c subs)).
Proof.
  intros Hall. unfold get_cost_by_category. rewrite Hall. cbn [bind].
  eexists. split; [reflexivity|].
  destruct (fold_dict_keys subs []) as [Hin Hnd].
  split; [apply Hnd; constructor|]. split.
  - intros c. rewrite Hin. cbn [map In]. tauto.
  - intros c. now rewrite fold_dict_get.
Qed.

Lemma get_cost_by_category_spec_witness :
  exists d,
    get_cost_by_category sample_db = Return d
    /\ NoDup (map fst d)
    /\ (forall c, In c (map fst d) <-> In c (map category sample_listing))
    /\ (forall c, dict_get d c = added_up (category_costs c sample_listing)).
Proof.
  apply (get_cost_by_category_spec sample_db sample_listing). reflexivity.
Defined.

(** ** When [get_upcoming_renewals] returns, and its window *)

Lemma upcoming_loop_returns_all (today : date) (days : Z) (subs : list Subscription)
    (up : list (Subscription * Z)) :
  upcoming_loop today days subs = Return up ->
  forall s, In s subs ->
    exists d, calculate_days_until_renewal today (renewal_date s) = Return d.
Proof.
  revert up. induction subs as [|x subs IH]; intros up H s Hin; [destruct Hin|].
  cbn [upcoming_loop] in H.
  destruct (calculate_days_until_renewal today (renewal_date x)) as [d|e] eqn:Ex;
    cbn [bind] in H; [|discriminate].
  destruct (upcoming_loop today days subs) as [tl|e]; cbn [bind] in H; [|discriminate].
  destruct Hin as [<-|Hin]; [eauto | exact (IH tl eq_refl s Hin)].
Qed.

(** X27.  Whether [get_upcoming_renewals] returns does not depend on the
    window: it returns exactly when the days of every listed record can be
    computed, so one record for which they cannot makes the query raise
    however far its renewal is. *)
Theorem get_upcoming_renewals_returns
    (today : date) (db : database) (days : Z) (subs : list Subscription) :
  get_all_subscriptions db = Return subs ->
  ((exists l, get_upcoming_renewals today db days = Return l)
   <-> forall s, In s subs ->
         exists d, calculate_days_until_renewal today (renewal_date s) = Return d).
Proof.
  intros Hall. unfold get_upcoming_renewals. rewrite Hall. cbn [bind]. split.
  - intros [l Hl].
    destruct (upcoming_loop today days subs) as [up|e] eqn:Eu; cbn [bind] in Hl;
      [|discriminate].
    now apply (upcoming_loop_returns_all today days subs up).
  - intros Hcalc.
    destruct (upcoming_loop_spec today days subs Hcalc) as (up & Hup & _).
    rewrite Hup. cbn [bind]. eauto.
Qed.

Lemma get_upcoming_renewals_returns_witness :
  (exists l, get_upcoming_renewals (mkdate 2024 1 5) sample_db 30 = Return l)
  <-> forall s, In s sample_listing ->
        exists d,
          calculate_days_until_renewal (mkdate 2024 1 5) (renewal_date s) = Return d.
Proof.
  apply (get_upcoming_renewals_returns (mkdate 2024 1 5) sample_db 30 sample_listing).
  reflexivity.
Defined.

Lemma upcoming_loop_window (today : date) (days days' : Z)
    (subs : list Subscription) (up up' : list (Subscription * Z)) :
  days <= days' ->
  upcoming_loop today days subs = Return up ->
  upcoming_loop today days' subs = Return up' ->
  up = filter (fun p => snd p <=? days) up'.
Proof.
  intros Hd. revert up up'.
  induction subs as [|s subs IH]; intros up up'; cbn [upcoming_loop].
  - now intros [= <-] [= <-].
  - destruct (calculate_days_until_renewal today (renewal_date s)) as [d|e];
      cbn [bind]; [|discriminate].
    destruct (upcoming_loop today days subs) as [tl|e]; cbn [bind]; [|discriminate].
    destruct (upcoming_loop today days' subs) as [tl'|e]; cbn [bind]; [|discriminate].
    intros [= <-] [= <-]. specialize (IH tl tl' eq_refl eq_refl). subst tl.
    destruct (Z.leb_spec 0 d), (Z.leb_spec d days), (Z.leb_spec d days');
      cbn [andb filter snd]; try reflexivity; try lia;
      destruct (Z.leb_spec d days); try reflexivity; lia.
Qed.

Lemma Z_leb_total (a b : Z) : (a <=? b) = true \/ (b <=? a) = true.
Proof. rewrite !Z.leb_le. lia. Qed.

Lemma Z_leb_trans (a b c : Z) :
  (a <=? b) = true -> (b <=? c) = true -> (a <=? c) = true.
Proof. rewrite !Z.leb_le. lia. Qed.

(** X28.  A narrower window returns what the wider window returns, cut at
    the narrower limit: the same pairs in the same order. *)
Theorem get_upcoming_renewals_window
    (today : date) (db : database) (days days' : Z)
    (l l' : list (Subscription * Z)) :
  days <= days' ->
  get_upcoming_renewals today db days = Return l ->
  get_upcoming_renewals today db days' = Return l' ->
  l = filter (fun p => snd p <=? days) l'.
Proof.
  intros Hd. unfold get_upcoming_renewals.
  destruct (get_all_subscriptions db) as [subs|e]; cbn [bind]; [|discriminate].
  destruct (upcoming_loop today days subs) as [up|e] eqn:E1; cbn [bind];
    [|discriminate].
  destruct (upcoming_loop today days' subs) as [up'|e] eqn:E2; cbn [bind];
    [|discriminate].
  intros [= <-] [= <-].
  rewrite (filter_stable_sort snd Z.leb Z_leb_total Z_leb_trans).
  f_equal. now apply (upcoming_loop_window today days days' subs).
Qed.

Lemma get_upcoming_renewals_window_witness :
  [ (mkSubscription (Some 4) "Dropbox Plus" "Cloud Storage" 9.99 "2024-01-10"
       "Credit Card", 5) ]
  = filter (fun p => snd p <=? 10)
      [ (mkSubscription (Some 4) "Dropbox Plus" "Cloud Storage" 9.99 "2024-01-10"
           "Credit Card", 5);
        (mkSubscription (Some 2) "Spotify Premium" "Music" 9.99 "2024-01-20"
           "PayPal", 15) ].
Proof.
  apply (get_upcoming_renewals_window (mkdate 2024 1 5) sample_db 10 30).
  - lia.
  - reflexivity.
  - reflexivity.
Defined.

(** ** Searching never misses a record *)






